(** * SheetPlotter: coordinate parsing, point resolution, column mapping,
      categorical styling and cluster aggregation

    Shallow embedding of [src/App.tsx] ([cleanAndParse], [processPoints],
    [handleApplyStyle]), [src/services/geminiService] ([identifyColumns],
    [fallbackMapping]) and [src/components/MapDisplay.tsx]
    ([iconCreateFunction] and the marker's [latentoValue]).

    JavaScript numbers are IEEE-754 binary64 values; they are modelled by
    [spec_float] of the Standard Library at precision 53, so that signed
    zeros, infinities, NaN and rounding behave as they do in the program.

    The texts modelled are strings of ASCII characters.  On these, [trim]
    removes TAB to CR and SPACE, and [toUpperCase] and [toLowerCase]
    change the letters [a-z] and [A-Z] only; the further white space and
    the case mappings that JavaScript has outside ASCII (U+00A0, sharp s
    to [SS], ...) are not modelled.  Statements about a text and a
    case-mapped or trimmed form of it are made relative to [Str.trim],
    [Str.toUpperCase] and [Str.toLowerCase], or for ASCII texts.

    An object literal used as a map ([colorMap]) is modelled with its own
    properties and the members it inherits from [Object.prototype]. *)

From Stdlib Require Import ZArith List Ascii String Bool Lia DecimalString.
From Stdlib Require Import Floats.SpecFloat.
From stdpp Require Import gmap strings list.

Local Open Scope string_scope.
Local Open Scope list_scope.

(** ** JavaScript numbers *)

Module Num.

Definition prec : Z := 53.
Definition emax : Z := 1024.

Definition number : Type := spec_float.

Definition NaN : number := S754_nan.
Definition zero : number := S754_zero false.

(** The number denoted by an integer literal. *)
Definition ofZ (z : Z) : number := binary_normalize prec emax z 0 false.

(** The binary64 value nearest to [m / 10^scale] (ties to even): the value
    of the decimal literal whose digits are [m], [scale] of them after the
    point. *)
Definition ofDecimal (m : N) (scale : nat) : number :=
  match m with
  | N0 => zero
  | Npos p =>
      SFdiv prec emax (S754_finite false p 0)
                      (S754_finite false (Z.to_pos (10 ^ Z.of_nat scale)) 0)
  end.

Definition isNaN (x : number) : bool :=
  match x with S754_nan => true | _ => false end.

Definition abs : number -> number := SFabs.
Definition neg : number -> number := SFopp.
Definition add : number -> number -> number := SFadd prec emax.

(** [x <= y], [x >= y], [x === y], [x !== y] on numbers. *)
Definition le (x y : number) : bool := SFleb x y.
Definition ge (x y : number) : bool := SFleb y x.
Definition lt (x y : number) : bool := SFltb x y.
Definition strictEq (x y : number) : bool := SFeqb x y.
Definition strictNeq (x y : number) : bool := negb (strictEq x y).

(** The sign bit: set on negative numbers, on [-0] and on [-Infinity]. *)
Definition signBit (x : number) : bool :=
  match x with
  | S754_zero s | S754_infinity s | S754_finite s _ _ => s
  | S754_nan => false
  end.

Definition isZero (x : number) : bool :=
  match x with S754_zero _ => true | _ => false end.

(** [x % 1]: the fractional part, with the sign of [x]; it is always
    representable, so no rounding takes place. *)
Definition rem1 (x : number) : number :=
  match x with
  | S754_nan | S754_infinity _ => NaN
  | S754_zero s => S754_zero s
  | S754_finite s m e =>
      if (0 <=? e)%Z then S754_zero s
      else
        match (Zpos m mod 2 ^ (- e))%Z with
        | Zpos r => binary_normalize prec emax (cond_Zopp s (Zpos r)) e s
        | _ => S754_zero s
        end
  end.

(** [n / 10] printed with one decimal: the digits of [n] with a point
    before the last one, and a leading ["0"] when [n < 10]. *)
Definition tenthsToString (n : N) : string :=
  (NilZero.string_of_uint (N.to_uint (n / 10)) ++ "." ++
   NilZero.string_of_uint (N.to_uint (n mod 10)))%string.

(** [x.toFixed(1)].  For a finite [x] the integer [n] nearest to
    [10 * |x|] is taken, the larger one on a tie, and printed with the
    sign of [x].  Numbers from [1e21] on are printed by [toFixed] in
    exponent notation instead; they are all integers, and the program
    calls [toFixed] on non-integers only. *)
Definition toFixed1 (x : number) : string :=
  match x with
  | S754_nan => "NaN"
  | S754_infinity false => "Infinity"
  | S754_infinity true => "-Infinity"
  | S754_zero _ => "0.0"
  | S754_finite s m e =>
      let n := if (0 <=? e)%Z then (10 * Zpos m * 2 ^ e)%Z
               else ((20 * Zpos m + 2 ^ (- e)) / 2 ^ (- e + 1))%Z in
      ((if s then "-" else "") ++ tenthsToString (Z.to_N n))%string
  end.

End Num.

Abbreviation number := Num.number.

(** ** JavaScript string operations (ASCII code units) *)

Module Str.

Definition isDigit (c : ascii) : bool :=
  let n := nat_of_ascii c in (48 <=? n)%nat && (n <=? 57)%nat.

Definition digitVal (c : ascii) : N := N.of_nat (nat_of_ascii c - 48).

(** The ASCII white space removed by [String.prototype.trim]: TAB, LF,
    VT, FF, CR and SPACE. *)
Definition isSpace (c : ascii) : bool :=
  let n := nat_of_ascii c in
  ((9 <=? n)%nat && (n <=? 13)%nat) || (n =? 32)%nat.

(** [toUpperCase] and [toLowerCase] on an ASCII character. *)
Definition upperChar (c : ascii) : ascii :=
  let n := nat_of_ascii c in
  if (97 <=? n)%nat && (n <=? 122)%nat then ascii_of_nat (n - 32) else c.

Definition lowerChar (c : ascii) : ascii :=
  let n := nat_of_ascii c in
  if (65 <=? n)%nat && (n <=? 90)%nat then ascii_of_nat (n + 32) else c.

Fixpoint map (f : ascii -> ascii) (s : string) : string :=
  match s with
  | EmptyString => EmptyString
  | String c r => String (f c) (map f r)
  end.

Fixpoint filter (f : ascii -> bool) (s : string) : string :=
  match s with
  | EmptyString => EmptyString
  | String c r => if f c then String c (filter f r) else filter f r
  end.

Definition toUpperCase : string -> string := map upperChar.
Definition toLowerCase : string -> string := map lowerChar.

Fixpoint trimStart (s : string) : string :=
  match s with
  | String c r => if isSpace c then trimStart r else s
  | EmptyString => EmptyString
  end.

(** [trimEnd] keeps a character when it is not white space or when
    something remains after it. *)
Fixpoint trimEnd (s : string) : string :=
  match s with
  | EmptyString => EmptyString
  | String c r =>
      match trimEnd r with
      | EmptyString => if isSpace c then EmptyString else String c EmptyString
      | r' => String c r'
      end
  end.

Definition trim (s : string) : string := trimEnd (trimStart s).

(** [s.includes(c)] for a one-character needle. *)
Fixpoint includesChar (c : ascii) (s : string) : bool :=
  match s with
  | EmptyString => false
  | String d r => Ascii.eqb d c || includesChar c r
  end.

Fixpoint startsWith (p s : string) : bool :=
  match p, s with
  | EmptyString, _ => true
  | String a p', String b s' => Ascii.eqb a b && startsWith p' s'
  | String _ _, EmptyString => false
  end.

(** [s.includes(needle)]: [needle] occurs as a contiguous substring. *)
Fixpoint includes (needle s : string) : bool :=
  startsWith needle s ||
  match s with
  | EmptyString => false
  | String _ r => includes needle r
  end.

(** [(s.match(/c/g) || []).length]: the number of occurrences of [c]. *)
Fixpoint countChar (c : ascii) (s : string) : nat :=
  match s with
  | EmptyString => 0
  | String d r => (if Ascii.eqb d c then 1 else 0) + countChar c r
  end.

(** [s.replace(c, d)] with string arguments of length one: only the first
    occurrence is replaced. *)
Fixpoint replaceFirst (c d : ascii) (s : string) : string :=
  match s with
  | EmptyString => EmptyString
  | String x r => if Ascii.eqb x c then String d r
                  else String x (replaceFirst c d r)
  end.

(** [s.split(/[,;]/)] and the like: split at every character satisfying
    [sep]; empty parts are kept, so the result is never empty. *)
Fixpoint split (sep : ascii -> bool) (s : string) : list string :=
  match s with
  | EmptyString => [EmptyString]
  | String c r =>
      if sep c then EmptyString :: split sep r
      else match split sep r with
           | p :: ps => String c p :: ps
           | [] => [String c EmptyString]
           end
  end.

(** Longest prefix of decimal digits, and the rest. *)
Fixpoint spanDigits (s : string) : string * string :=
  match s with
  | String c r =>
      if isDigit c then let '(d, t) := spanDigits r in (String c d, t)
      else (EmptyString, s)
  | EmptyString => (EmptyString, EmptyString)
  end.

(** The natural number written by a string of decimal digits. *)
Fixpoint digitsValue (acc : N) (s : string) : N :=
  match s with
  | EmptyString => acc
  | String c r => digitsValue (10 * acc + digitVal c)%N r
  end.

End Str.

(** ** [parseFloat]

    Both callers apply [parseFloat] to a string from which everything but
    digits, [.] and [-] has been removed.  On such strings the
    StrDecimalLiteral grammar leaves: an optional [-], then digits with an
    optional fraction, or [.] followed by digits; the longest such prefix
    is converted and the rest is ignored.  No prefix gives [NaN]. *)

Definition parseUnsigned (s : string) : option number :=
  let '(ip, r) := Str.spanDigits s in
  let fp := match r with
            | String "." r' => fst (Str.spanDigits r')
            | _ => EmptyString
            end in
  match ip, fp with
  | EmptyString, EmptyString => None
  | _, _ => Some (Num.ofDecimal (Str.digitsValue 0 (ip ++ fp)%string)
                            (String.length fp))
  end.

Definition parseFloat (s : string) : number :=
  match s with
  | String "-" r =>
      match parseUnsigned r with
      | Some x => Num.neg x
      | None => Num.NaN
      end
  | _ =>
      match parseUnsigned s with
      | Some x => x
      | None => Num.NaN
      end
  end.

(** ** Scalar coordinate parser: [cleanAndParse] (src/App.tsx) *)

(** The character class [[0-9.-]] kept by [replace(/[^0-9.-]/g, '')]. *)
Definition isNumericChar (c : ascii) : bool :=
  Str.isDigit c || Ascii.eqb c "." || Ascii.eqb c "-".

Definition stripNonNumeric (s : string) : string := Str.filter isNumericChar s.

(** The value of [isNegative] for the trimmed, uppercased text [s]. *)
Definition isNegative (s : string) : bool :=
  Str.includesChar "S" s || Str.includesChar "W" s || Str.startsWith "-" s.

(** The comma rewrite of [cleanAndParse]. *)
Definition normalizeComma (s : string) : string :=
  if Str.includesChar "," s && negb (Str.includesChar "." s) then
    if (Str.countChar "," s =? 1)%nat then Str.replaceFirst "," "." s else s
  else s.

Definition cleanAndParse (val : string) : option number :=
  let s := Str.toUpperCase (Str.trim val) in
  if String.eqb s "" then None else
  let negative := isNegative s in
  let s := normalizeComma s in
  let cleaned := stripNonNumeric s in
  let num := parseFloat cleaned in
  if Num.isNaN num then None
  else Some (if negative then Num.neg (Num.abs num) else Num.abs num).

(** ** Data model (src/types.ts) *)

(** A cell of a [SheetRow] is a string or a number. *)
Inductive Cell : Type :=
  | CStr (s : string)
  | CNum (x : number).

(** A [SheetRow]: the own properties of the object in enumeration order,
    each key once. *)
Definition SheetRow : Type := list (string * Cell).

(** [row[key]]; [None] is [undefined]. *)
Fixpoint getCell (row : SheetRow) (key : string) : option Cell :=
  match row with
  | [] => None
  | (k, v) :: rest => if String.eqb k key then Some v else getCell rest key
  end.

(** [ColumnMapping].  A field is [None] when it holds [undefined], which
    [fallbackMapping] produces on header lists that are too short. *)
Record ColumnMapping : Type := {
  latColumn : option string;
  lngColumn : option string
}.

Record PlotPoint : Type := {
  lat : number;
  lng : number;
  data : SheetRow
}.

(** *** Plain objects used as maps

    [colorMap] is an object literal, so it inherits from
    [Object.prototype].  The model keeps the own properties, which all
    hold strings here, and the names of the inherited members. *)

Record PlainObject : Type := {
  ownProperties : gmap string string
}.

(** The object literal [{}]. *)
Definition emptyObject : PlainObject := {| ownProperties := ∅ |}.

(** The property names of [Object.prototype]. *)
Definition objectPrototypeNames : list string :=
  ["constructor"; "__defineGetter__"; "__defineSetter__"; "hasOwnProperty";
   "__lookupGetter__"; "__lookupSetter__"; "isPrototypeOf";
   "propertyIsEnumerable"; "toString"; "valueOf"; "__proto__";
   "toLocaleString"].

(** What [obj[key]] evaluates to: the string of an own property, a member
    inherited from [Object.prototype] (a function, or the prototype itself
    for [__proto__]), or [undefined]. *)
Inductive PropertyValue : Type :=
  | PropText (s : string)
  | PropInherited (name : string)
  | PropUndefined.

(** [obj[key] = value] for a string [value].  The key [__proto__] reaches
    the setter inherited from [Object.prototype], which ignores a value
    that is neither an object nor [null]: nothing is stored.  Any other
    key becomes, or stays, an own property; an inherited data property of
    that name is writable and does not prevent it. *)
Definition setProperty (obj : PlainObject) (key value : string) : PlainObject :=
  if String.eqb key "__proto__" then obj
  else {| ownProperties := <[key := value]> (ownProperties obj) |}.

(** [obj[key]]: the own property if there is one, else what
    [Object.prototype] has under that name. *)
Definition getProperty (obj : PlainObject) (key : string) : PropertyValue :=
  match ownProperties obj !! key with
  | Some s => PropText s
  | None =>
      if bool_decide (key ∈ objectPrototypeNames) then PropInherited key
      else PropUndefined
  end.

Inductive StyleRuleType : Type := categorical.

Record StyleRule : Type := {
  column : string;
  type : StyleRuleType;
  colorMap : PlainObject
}.

Record StyleConfig : Type := {
  activeColumn : option string;
  rule : option StyleRule
}.

Inductive ThemeMode : Type := light | dark.

Record AppState : Type := {
  isLoading : bool;
  error : option string;
  sheetData : list SheetRow;
  headers : list string;
  mapping : option ColumnMapping;
  points : list PlotPoint;
  styleConfig : StyleConfig;
  theme : ThemeMode
}.

(** Truthiness of a string-or-undefined value: [!v] is [negb (truthy v)]. *)
Definition truthy (v : option string) : bool :=
  match v with
  | Some s => negb (String.eqb s "")
  | None => false
  end.

(** [a === b] on string-or-undefined values. *)
Definition sameColumn (a b : option string) : bool :=
  match a, b with
  | Some x, Some y => String.eqb x y
  | None, None => true
  | _, _ => false
  end.

Section Rows.

(** [Number.prototype.toString], used by [String(cell)] on numeric cells.
    The development does not depend on how numbers are printed. *)
Variable numberToString : number -> string.

(** [String(row[key])]. *)
Definition cellText (row : SheetRow) (key : option string) : string :=
  match key with
  | None => "undefined"
  | Some k =>
      match getCell row k with
      | None => "undefined"
      | Some (CStr s) => s
      | Some (CNum x) => numberToString x
      end
  end.

(** ** Row-to-point resolver: [processPoints] (src/App.tsx) *)

(** The delimiter class of [split(/[,;]/)]. *)
Definition isDelimiter (c : ascii) : bool := Ascii.eqb c "," || Ascii.eqb c ";".

(** The values of [lat] and [lng] after the branch on [isSameColumn];
    [None] is [null]. *)
Definition rowCoordinates (m : ColumnMapping) (isSameColumn : bool)
    (row : SheetRow) : option number * option number :=
  if isSameColumn then
    let combined := cellText row (latColumn m) in
    let parts := Str.split isDelimiter combined in
    match parts with
    | p0 :: p1 :: _ => (cleanAndParse p0, cleanAndParse p1)
    | _ => (None, None)
    end
  else
    (cleanAndParse (cellText row (latColumn m)),
     cleanAndParse (cellText row (lngColumn m))).

(** The guard before [validPoints.push]. *)
Definition validCoordinates (lat lng : number) : bool :=
  Num.ge lat (Num.neg (Num.ofZ 90)) && Num.le lat (Num.ofZ 90) &&
  Num.ge lng (Num.neg (Num.ofZ 180)) && Num.le lng (Num.ofZ 180) &&
  (Num.strictNeq lat Num.zero || Num.strictNeq lng Num.zero).

(** One iteration of [rows.forEach]: the state is the array
    [validPoints]. *)
Definition processRow (m : ColumnMapping) (isSameColumn : bool)
    (validPoints : list PlotPoint) (row : SheetRow) : list PlotPoint :=
  match rowCoordinates m isSameColumn row with
  | (Some lat, Some lng) =>
      if validCoordinates lat lng
      then validPoints ++ [{| lat := lat; lng := lng; data := row |}]
      else validPoints
  | _ => validPoints
  end.

Definition processPoints (rows : list SheetRow) (mapping : option ColumnMapping)
    : list PlotPoint :=
  match mapping with
  | None => []
  | Some m =>
      if negb (truthy (latColumn m)) || negb (truthy (lngColumn m)) then []
      else
        let isSameColumn := sameColumn (latColumn m) (lngColumn m) in
        fold_left (processRow m isSameColumn) rows []
  end.

End Rows.

(** ** Column mapping resolver (src/services/geminiService) *)

Definition isLatHeader (h : string) : bool :=
  let l := Str.toLowerCase h in
  Str.includes "lat" l || Str.includes "y" l ||
  String.eqb l "coordinates" || String.eqb l "coords".

Definition isLngHeader (h : string) : bool :=
  let l := Str.toLowerCase h in
  Str.includes "lng" l || Str.includes "long" l || Str.includes "x" l ||
  String.eqb l "coordinates" || String.eqb l "coords".

(** [a || b] on string-or-undefined values. *)
Definition orElse (a b : option string) : option string :=
  if truthy a then a else b.

Definition fallbackMapping (headers : list string) : ColumnMapping :=
  let lat := List.find isLatHeader headers in
  let lng := List.find isLngHeader headers in
  {| latColumn := orElse lat (headers !! 0%nat);
     lngColumn := orElse lng (headers !! 1%nat) |}.

(** What the remote model call of [identifyColumns] does: it answers with
    a JSON object of the response schema, or the [try] block throws (the
    request fails, or the text is not JSON). *)
Inductive ModelReply : Type :=
  | Replied (m : ColumnMapping)
  | Threw.

(** [identifyColumns]: [apiKey] is the result of [getApiKey()]; the sample
    rows only enter the prompt. *)
Definition identifyColumns (apiKey : string) (reply : ModelReply)
    (headers : list string) : ColumnMapping :=
  if negb (truthy (Some apiKey)) then fallbackMapping headers
  else match reply with
       | Replied m => m
       | Threw => fallbackMapping headers
       end.

(** ** Categorical style assigner: [handleApplyStyle] (src/App.tsx) *)

Definition PALETTE : list string :=
  ["#ef4444"; "#3b82f6"; "#10b981"; "#f59e0b"; "#8b5cf6";
   "#ec4899"; "#06b6d4"; "#f97316"; "#6366f1"; "#14b8a6"].

(** [Array.from(new Set(xs))]: a [Set] keeps its elements in insertion
    order and ignores an element it already holds. *)
Definition setAdd (seen : list string) (x : string) : list string :=
  if bool_decide (x ∈ seen) then seen else seen ++ [x].

Definition arrayFromSet (xs : list string) : list string :=
  fold_left setAdd xs [].

(** [uniqueValues.forEach((val, idx) => { colorMap[val] = ... })], started
    at index [idx]. *)
Fixpoint assignColors (idx : nat) (vals : list string)
    (colorMap : PlainObject) : PlainObject :=
  match vals with
  | [] => colorMap
  | val :: rest =>
      let colorMap' :=
        match PALETTE !! (idx mod length PALETTE) with
        | Some color => setProperty colorMap val color
        | None => colorMap
        end in
      assignColors (S idx) rest colorMap'
  end.

Section Style.

Variable numberToString : number -> string.

Definition uniqueValues (sheetData : list SheetRow) (columnName : string)
    : list string :=
  arrayFromSet
    (List.map (fun r => cellText numberToString r (Some columnName)) sheetData).

Definition setStyleConfig (st : AppState) (c : StyleConfig) : AppState :=
  {| isLoading := isLoading st; error := error st;
     sheetData := sheetData st; headers := headers st;
     mapping := mapping st; points := points st;
     styleConfig := c; theme := theme st |}.

Definition handleApplyStyle (st : AppState) (columnName : string) : AppState :=
  if String.eqb columnName "" then
    setStyleConfig st {| activeColumn := None; rule := None |}
  else
    let colorMap :=
      assignColors 0 (uniqueValues (sheetData st) columnName) emptyObject in
    let rule := {| column := columnName; type := categorical;
                  colorMap := colorMap |} in
    setStyleConfig st {| activeColumn := Some columnName; rule := Some rule |}.

(** ** Cluster aggregator (src/components/MapDisplay.tsx) *)

(** The [latentoValue] option given to a point's marker. *)
Definition latentoKey (p : PlotPoint) : option string :=
  List.find (fun k => String.eqb (Str.toLowerCase k) "latento")
            (List.map fst (data p)).

Definition latentoValue (p : PlotPoint) : string :=
  if truthy (latentoKey p) then cellText numberToString (data p) (latentoKey p)
  else "".

End Style.

(** A marker option as [iconCreateFunction] reads it. *)
Inductive OptionValue : Type :=
  | Undefined
  | Null
  | Text (s : string).

(** [displayValue] is a number or the string made by [toFixed]. *)
Inductive DisplayValue : Type :=
  | DNumber (x : number)
  | DString (s : string).

(** One iteration of [markers.forEach]: the state is
    [(totalLatento, hasNumericValue)]. *)
Definition addMarker (acc : number * bool) (val : OptionValue) : number * bool :=
  match val with
  | Undefined | Null => acc
  | Text s =>
      if String.eqb s "" then acc
      else
        let numericPart := stripNonNumeric s in
        let num := parseFloat numericPart in
        if Num.isNaN num then acc else (Num.add (fst acc) num, true)
  end.

(** [displayValue] of [iconCreateFunction] for a cluster whose child
    markers carry the [latentoValue] options [markers];
    [cluster.getChildCount()] is their number. *)
Definition displayValue (markers : list OptionValue) : DisplayValue :=
  let '(totalLatento, hasNumericValue) :=
    fold_left addMarker markers (Num.zero, false) in
  if hasNumericValue then
    if Num.strictEq (Num.rem1 totalLatento) Num.zero then DNumber totalLatento
    else DString (Num.toFixed1 totalLatento)
  else DNumber (Num.ofZ (Z.of_nat (length markers))).

(** ** State handlers (src/App.tsx) *)

Definition toggleTheme (st : AppState) : AppState :=
  {| isLoading := isLoading st; error := error st;
     sheetData := sheetData st; headers := headers st;
     mapping := mapping st; points := points st;
     styleConfig := styleConfig st;
     theme := match theme st with light => dark | dark => light end |}.

(** The argument [type: 'lat' | 'lng'] of [updateMapping]. *)
Inductive MappingSide : Type := sideLat | sideLng.

(** What [await fetchGoogleSheetData] and [await identifyColumns] bring
    back to [handleFetch]: the sheet with the answer of the column
    inference, or an exception caught by the [catch] block. *)
Inductive FetchOutcome : Type :=
  | FetchLoaded (hs : list string) (rows : list SheetRow)
                (apiKey : string) (reply : ModelReply)
  | FetchFailed (message : string).

Section Handlers.

Variable numberToString : number -> string.

Definition setMapping (st : AppState) (newMapping : ColumnMapping) : AppState :=
  {| isLoading := isLoading st; error := error st;
     sheetData := sheetData st; headers := headers st;
     mapping := Some newMapping;
     points := processPoints numberToString (sheetData st) (Some newMapping);
     styleConfig := styleConfig st; theme := theme st |}.

Definition updateMapping (st : AppState) (type : MappingSide) (column : string)
    : AppState :=
  let newMapping :=
    match mapping st with
    | Some m => m
    | None => {| latColumn := Some ""; lngColumn := Some "" |}
    end in
  let newMapping :=
    match type with
    | sideLat => {| latColumn := Some column; lngColumn := lngColumn newMapping |}
    | sideLng => {| latColumn := latColumn newMapping; lngColumn := Some column |}
    end in
  setMapping st newMapping.

Definition swapMapping (st : AppState) : AppState :=
  match mapping st with
  | None => st
  | Some m =>
      setMapping st {| latColumn := lngColumn m; lngColumn := latColumn m |}
  end.

(** The state after [handleFetch] has run to its end: the reset made
    before the request, then the update of the [try] or of the [catch]
    branch. *)
Definition handleFetch (st : AppState) (targetUrl : string)
    (outcome : FetchOutcome) : AppState :=
  if negb (truthy (Some targetUrl)) then st
  else
    match outcome with
    | FetchLoaded hs rows apiKey reply =>
        let mapping := identifyColumns apiKey reply hs in
        let validPoints := processPoints numberToString rows (Some mapping) in
        {| isLoading := false; error := None;
           sheetData := rows; headers := hs;
           mapping := Some mapping; points := validPoints;
           styleConfig := styleConfig st; theme := theme st |}
    | FetchFailed message =>
        {| isLoading := false; error := Some message;
           sheetData := []; headers := headers st;
           mapping := None; points := [];
           styleConfig := styleConfig st; theme := theme st |}
    end.

(** ** Marker colours (src/components/MapDisplay.tsx) *)

Definition DEFAULT_COLOR : string := "#4f46e5".

(** [v || DEFAULT_COLOR]: an inherited member is an object or a
    function, which is truthy. *)
Definition orDefaultColor (v : PropertyValue) : PropertyValue :=
  match v with
  | PropText s => if truthy (Some s) then v else PropText DEFAULT_COLOR
  | PropInherited _ => v
  | PropUndefined => PropText DEFAULT_COLOR
  end.

(** [getMarkerColor].  The result is a colour text, except when the
    lookup in [colorMap] finds a member inherited from
    [Object.prototype], which is returned as it is. *)
Definition getMarkerColor (styleConfig : StyleConfig) (point : PlotPoint)
    : PropertyValue :=
  match rule styleConfig with
  | Some r =>
      if truthy (activeColumn styleConfig) then
        let value := cellText numberToString (data point) (activeColumn styleConfig) in
        orDefaultColor (getProperty (colorMap r) value)
      else PropText DEFAULT_COLOR
  | None => PropText DEFAULT_COLOR
  end.

End Handlers.

(** The state [useState] starts from, for a stored theme. *)
Definition initialState (storedTheme : ThemeMode) : AppState :=
  {| isLoading := false; error := None; sheetData := []; headers := [];
     mapping := None; points := [];
     styleConfig := {| activeColumn := None; rule := None |};
     theme := storedTheme |}.

(** The class [[a-f\d]] under the [i] flag. *)
Definition isHexDigit (c : ascii) : bool :=
  let n := nat_of_ascii c in
  Str.isDigit c || ((97 <=? n)%nat && (n <=? 102)%nat) ||
  ((65 <=? n)%nat && (n <=? 70)%nat).

Definition hexDigitValue (c : ascii) : N :=
  let n := nat_of_ascii c in
  if Str.isDigit c then N.of_nat (n - 48)
  else if (97 <=? n)%nat then N.of_nat (n - 87)
  else N.of_nat (n - 55).

(** [parseInt(pair, 16)] on a group of two hexadecimal digits. *)
Definition parseHexPair (hi lo : ascii) : N :=
  (16 * hexDigitValue hi + hexDigitValue lo)%N.

(** The decimal digits of a natural number, as a template literal prints
    it. *)
Definition showN (n : N) : string := NilZero.string_of_uint (N.to_uint n).

Definition rgbText (r g b : N) : string :=
  (showN r ++ ", " ++ showN g ++ ", " ++ showN b)%string.

(** [hexToRgb]: the pattern [/^#?([a-f\d]{2})([a-f\d]{2})([a-f\d]{2})$/i]
    accepts an optional [#] followed by exactly six hexadecimal digits. *)
Definition hexToRgb (hex : string) : string :=
  let body := match hex with
              | String "#" rest => rest
              | _ => hex
              end in
  match body with
  | String r1 (String r2 (String g1 (String g2 (String b1 (String b2 EmptyString))))) =>
      if forallb isHexDigit [r1; r2; g1; g2; b1; b2]
      then rgbText (parseHexPair r1 r2) (parseHexPair g1 g2) (parseHexPair b1 b2)
      else "79, 70, 229"
  | _ => "79, 70, 229"
  end.

(** * Specification-side definitions

    These follow the wording of the specification; the theorems below
    compare them with the code. *)

(** Combined-column mode, as specified: split the cell's text on comma or
    semicolon; fewer than two parts skip the row; otherwise the first two
    parts are parsed as latitude and longitude, and the row gives a point
    when both parse and the pair satisfies the point invariant. *)
Definition combinedRowPoints (numberToString : number -> string)
    (c : string) (row : SheetRow) : list PlotPoint :=
  match Str.split isDelimiter (cellText numberToString row (Some c)) with
  | first :: second :: _ =>
      match cleanAndParse first, cleanAndParse second with
      | Some la, Some ln =>
          if validCoordinates la ln
          then [{| lat := la; lng := ln; data := row |}]
          else []
      | _, _ => []
      end
  | _ => []
  end.

(** The distinct values of a list in first-occurrence order: keep the
    head, drop its later occurrences, go on. *)
Fixpoint firstOccurrences (xs : list string) : list string :=
  match xs with
  | [] => []
  | x :: rest =>
      x :: filter (fun y => y <> x) (firstOccurrences rest)
  end.

(** The number a cluster member contributes: its highlight value with
    everything but digits, period and minus removed, parsed; [None] when
    that is not a number. *)
Definition memberNumber (val : OptionValue) : option number :=
  let text := match val with
              | Undefined => "undefined"
              | Null => "null"
              | Text s => s
              end in
  let num := parseFloat (stripNonNumeric text) in
  if Num.isNaN num then None else Some num.

(** A sum shown as an integer when [sum % 1 === 0] and to one decimal
    place otherwise. *)
Definition renderSum (sum : number) : DisplayValue :=
  if Num.strictEq (Num.rem1 sum) Num.zero then DNumber sum
  else DString (Num.toFixed1 sum).

(** The cluster display value, as specified. *)
Definition clusterDisplaySpec (markers : list OptionValue) : DisplayValue :=
  match omap memberNumber markers with
  | [] => DNumber (Num.ofZ (Z.of_nat (length markers)))
  | nums => renderSum (fold_left Num.add nums Num.zero)
  end.

(** [needle] occurs in [s] as a contiguous substring. *)
Definition substringOf (needle s : string) : Prop :=
  exists before after, s = (before ++ needle ++ after)%string.

(** [c] occurs in [s]. *)
Definition occursIn (c : ascii) (s : string) : Prop :=
  In c (list_ascii_of_string s).

(** The sign rule of the scalar parser: the text contains [S] or [W]
    somewhere, or starts with a minus sign. *)
Definition signRuleFires (s : string) : Prop :=
  occursIn "S" s \/ occursIn "W" s \/ exists rest, s = String "-" rest.

(** The result for a parsed number and a sign decision: the absolute
    value, negated when the sign is negative; nothing when the parse
    failed. *)
Definition signedMagnitude (negative : bool) (num : number) : option number :=
  if Num.isNaN num then None
  else Some (if negative then Num.neg (Num.abs num) else Num.abs num).

(** The heuristic of the mapping resolver, as specified: a header is a
    latitude candidate when, lowercased, it contains [lat] or [y] or is
    [coordinates] or [coords]; a longitude candidate when it contains
    [lng], [long] or [x] or is [coordinates] or [coords]. *)
Definition latCandidate (h : string) : Prop :=
  let l := Str.toLowerCase h in
  substringOf "lat" l \/ substringOf "y" l \/ l = "coordinates" \/ l = "coords".

Definition lngCandidate (h : string) : Prop :=
  let l := Str.toLowerCase h in
  substringOf "lng" l \/ substringOf "long" l \/ substringOf "x" l \/
  l = "coordinates" \/ l = "coords".

(** [h] is the first header of the list that satisfies [P]. *)
Definition firstCandidate (P : string -> Prop) (headers : list string)
    (h : string) : Prop :=
  exists before after,
    headers = before ++ h :: after /\ P h /\ Forall (fun x => ~ P x) before.

(** The column chosen for one side: the first candidate, or else the
    header at the fallback position. *)
Definition chosenColumn (P : string -> Prop) (position : nat)
    (headers : list string) (h : string) : Prop :=
  firstCandidate P headers h \/
  (Forall (fun x => ~ P x) headers /\ headers !! position = Some h).

(** Dual-column mode, as the code has it for one row: the two cells are
    parsed independently, and the row gives a point when both parse and
    the pair passes the range guard. *)
Definition dualRowPoints (numberToString : number -> string)
    (latName lngName : string) (row : SheetRow) : list PlotPoint :=
  match cleanAndParse (cellText numberToString row (Some latName)),
        cleanAndParse (cellText numberToString row (Some lngName)) with
  | Some la, Some ln =>
      if validCoordinates la ln
      then [{| lat := la; lng := ln; data := row |}]
      else []
  | _, _ => []
  end.

(** The number of characters of [s] that satisfy [f]. *)
Fixpoint countIf (f : ascii -> bool) (s : string) : nat :=
  match s with
  | EmptyString => 0
  | String c r => (if f c then 1 else 0) + countIf f r
  end.

(** Every character of [s] is white space. *)
Definition allSpaces (s : string) : Prop :=
  forall c, occursIn c s -> Str.isSpace c = true.

(** The points of a state are the ones its rows and mapping give. *)
Definition consistent (numberToString : number -> string) (st : AppState) : Prop :=
  points st = processPoints numberToString (sheetData st) (mapping st).

(** The colour text for the part of a colour code after an optional [#]:
    six hexadecimal digits give their three values, anything else the
    fallback. *)
Definition rgbOfDigits (body : string) : string :=
  match body with
  | String r1 (String r2 (String g1 (String g2 (String b1 (String b2 EmptyString))))) =>
      if forallb isHexDigit [r1; r2; g1; g2; b1; b2]
      then rgbText (parseHexPair r1 r2) (parseHexPair g1 g2) (parseHexPair b1 b2)
      else "79, 70, 229"
  | _ => "79, 70, 229"
  end.

(** [s] without its first character. *)
Definition dropFirst (s : string) : string :=
  match s with
  | EmptyString => EmptyString
  | String _ r => r
  end.

(** Every character of [s] is a decimal digit. *)
Definition allDigits (s : string) : Prop :=
  forall c, occursIn c s -> Str.isDigit c = true.

(** Every character of [s] is an ASCII character.  On such texts [trim],
    [toUpperCase] and [toLowerCase] of the program do what [Str.trim],
    [Str.toUpperCase] and [Str.toLowerCase] do. *)
Definition isAscii (s : string) : Prop :=
  forall c, occursIn c s -> (nat_of_ascii c < 128)%nat.

(** * Evaluation checks

    The definitions run; these values agree with the program's. *)

Section Evaluation.

(** [48.85] is [0x1.86ccccccccccdp+5] and [0.1] is [0x1.999999999999ap-4]. *)
Example ofDecimal_48_85 :
  Num.ofDecimal 4885 2 = S754_finite false 6875026306157773 (-47).
Proof. reflexivity. Qed.

Example ofDecimal_tenth :
  Num.ofDecimal 1 1 = S754_finite false 7205759403792794 (-56).
Proof. reflexivity. Qed.

Example ofZ_90 : Num.ofZ 90 = S754_finite false 6333186975989760 (-46).
Proof. reflexivity. Qed.

(** Conversion rounds to nearest, underflows to zero and overflows to
    infinity. *)
Example ofDecimal_rounds :
  Num.ofDecimal 90000000000000000001 18 = Num.ofZ 90 /\
  Num.ofDecimal 2 324 = Num.zero /\
  Num.ofDecimal (10 ^ 309) 0 = S754_infinity false.
Proof. repeat split; vm_compute; reflexivity. Qed.

Example parseFloat_prefixes :
  parseFloat "1.2.3" = Num.ofDecimal 12 1 /\
  parseFloat "1-2" = Num.ofZ 1 /\
  parseFloat "5." = Num.ofZ 5 /\
  parseFloat "-.5" = Num.neg (Num.ofDecimal 5 1) /\
  parseFloat "-0" = S754_zero true /\
  parseFloat "--5" = Num.NaN /\
  parseFloat "." = Num.NaN /\
  parseFloat "" = Num.NaN.
Proof. repeat split; reflexivity. Qed.

Example cleanAndParse_rejects :
  cleanAndParse "" = None /\ cleanAndParse "   " = None /\
  cleanAndParse "n/a" = None /\ cleanAndParse "--5" = None.
Proof. repeat split; reflexivity. Qed.

(** A letter [S] or [W] inside unrelated text flips the sign as well. *)
Example cleanAndParse_hemisphere_letter :
  cleanAndParse "West 12" = Some (Num.neg (Num.ofZ 12)) /\
  cleanAndParse "12 st" = Some (Num.neg (Num.ofZ 12)) /\
  cleanAndParse "N 12" = Some (Num.ofZ 12).
Proof. repeat split; reflexivity. Qed.

Example toFixed1_values :
  Num.toFixed1 (Num.ofDecimal 125 2) = "1.3" /\
  Num.toFixed1 (Num.ofDecimal 145 2) = "1.4" /\
  Num.toFixed1 (Num.ofDecimal 5 2) = "0.1" /\
  Num.toFixed1 (Num.neg (Num.ofDecimal 4 2)) = "-0.0" /\
  Num.toFixed1 (Num.ofDecimal 123456 2) = "1234.6".
Proof. repeat split; reflexivity. Qed.

Example rem1_values :
  Num.rem1 (Num.ofDecimal 1075 2) = Num.ofDecimal 75 2 /\
  Num.rem1 (Num.ofZ 15) = Num.zero /\
  Num.rem1 (Num.neg (Num.ofZ 15)) = S754_zero true /\
  Num.rem1 (S754_infinity false) = Num.NaN.
Proof. repeat split; reflexivity. Qed.

Example split_keeps_empty_parts :
  Str.split isDelimiter "a,,b;" = ["a"; ""; "b"; ""] /\
  Str.split isDelimiter "" = [""] /\
  Str.trim "  a b  " = "a b".
Proof. repeat split; reflexivity. Qed.

(** [toFixed] is reached on non-integers only: then the exponent is
    negative, and the number is below [2^53]. *)
Lemma rem1_nonzero x :
  Num.strictEq (Num.rem1 x) Num.zero = false ->
  match x with
  | S754_finite _ _ e => (e < 0)%Z
  | S754_zero _ => False
  | _ => True
  end.
Proof.
  destruct x as [s | s | | s m e]; simpl; try easy.
  destruct (Z.leb_spec 0 e); [discriminate | trivial].
Qed.

End Evaluation.

(** * Facts about the string operations *)

Section StringFacts.

Lemma includesChar_occursIn c s :
  Str.includesChar c s = true <-> occursIn c s.
Proof.
  unfold occursIn. induction s as [|d r IH]; simpl.
  - split; [discriminate | tauto].
  - rewrite orb_true_iff, IH, Ascii.eqb_eq. tauto.
Qed.

Lemma countChar_zero c s :
  Str.countChar c s = 0%nat <-> Str.includesChar c s = false.
Proof.
  induction s as [|d r IH]; simpl; [tauto|].
  destruct (Ascii.eqb d c); simpl; [split; discriminate | exact IH].
Qed.

Lemma startsWith_prefix p s :
  Str.startsWith p s = true <-> exists rest, s = (p ++ rest)%string.
Proof.
  revert s. induction p as [|a p IH]; intros s; simpl.
  - split; [eauto | trivial].
  - destruct s as [|b s].
    + split; [discriminate | intros [rest H]; discriminate].
    + rewrite andb_true_iff, Ascii.eqb_eq, IH. split.
      * intros [-> [rest ->]]. eauto.
      * intros [rest H]. injection H as -> ->. eauto.
Qed.

Lemma includes_substringOf needle s :
  Str.includes needle s = true <-> substringOf needle s.
Proof.
  unfold substringOf. induction s as [|c r IH].
  - simpl. rewrite orb_false_r, startsWith_prefix. split.
    + intros [rest H]. exists EmptyString, rest. exact H.
    + intros [[|b before] [after H]]; [eauto | discriminate].
  - cbn [Str.includes]. rewrite orb_true_iff, startsWith_prefix, IH. split.
    + intros [[rest H] | [before [after H]]].
      * exists EmptyString, rest. exact H.
      * exists (String c before), after. simpl. now rewrite H.
    + intros [[|b before] [after H]].
      * left. eauto.
      * right. simpl in H. injection H as -> ->. eauto.
Qed.

End StringFacts.

(** * The row-to-point resolver *)

Section ResolverFacts.

Variable numberToString : number -> string.

(** [push] only appends: an iteration leaves the points found so far in
    place. *)
Lemma processRow_app m same acc row :
  processRow numberToString m same acc row = acc ++ processRow numberToString m same [] row.
Proof.
  unfold processRow.
  destruct (rowCoordinates numberToString m same row) as [[la|] [ln|]];
    try (now rewrite app_nil_r).
  destruct (validCoordinates la ln); [reflexivity | now rewrite app_nil_r].
Qed.

Lemma fold_processRow m same rows acc :
  fold_left (processRow numberToString m same) rows acc
  = acc ++ flat_map (processRow numberToString m same []) rows.
Proof.
  revert acc. induction rows as [|row rows IH]; intros acc; simpl.
  - now rewrite app_nil_r.
  - rewrite IH, (processRow_app m same acc row), <- app_assoc. reflexivity.
Qed.

Lemma processPoints_configured rows m :
  truthy (latColumn m) = true -> truthy (lngColumn m) = true ->
  processPoints numberToString rows (Some m)
  = flat_map (processRow numberToString m (sameColumn (latColumn m) (lngColumn m)) []) rows.
Proof.
  intros Hlat Hlng. unfold processPoints.
  rewrite Hlat, Hlng. simpl. apply (fold_processRow m _ rows []).
Qed.

Lemma processRow_point m same row p :
  In p (processRow numberToString m same [] row) ->
  validCoordinates (lat p) (lng p) = true /\ data p = row.
Proof.
  unfold processRow.
  destruct (rowCoordinates numberToString m same row) as [[la|] [ln|]];
    simpl; try tauto.
  destruct (validCoordinates la ln) eqn:Hvalid; simpl; [|tauto].
  intros [<- | []]. simpl. auto.
Qed.

Lemma processPoints_point rows mapping p :
  In p (processPoints numberToString rows mapping) ->
  validCoordinates (lat p) (lng p) = true /\ In (data p) rows.
Proof.
  unfold processPoints.
  destruct mapping as [m|]; [|intros []].
  destruct (negb (truthy (latColumn m)) || negb (truthy (lngColumn m)));
    [intros []|].
  rewrite (fold_processRow m _ rows []). simpl.
  rewrite in_flat_map. intros [row [Hrow Hp]].
  apply processRow_point in Hp. destruct Hp as [Hvalid <-]. auto.
Qed.

(** C9: [processPoints] returns the empty array when the mapping is
    [null] or one of its column names is the empty string, and on an empty
    row list for every mapping.  The function is total: nothing is
    raised. *)
Theorem processPoints_inert :
  (forall rows mapping,
     (mapping = None \/
      exists m, mapping = Some m /\
                (latColumn m = Some "" \/ lngColumn m = Some "")) ->
     processPoints numberToString rows mapping = []) /\
  (forall mapping, processPoints numberToString [] mapping = []).
Proof.
  split.
  - intros rows mapping [-> | [m [-> H]]]; [reflexivity|].
    unfold processPoints.
    destruct H as [H | H]; rewrite H; simpl; [reflexivity|].
    now rewrite orb_true_r.
  - intros [m|]; [|reflexivity].
    unfold processPoints.
    now destruct (negb (truthy (latColumn m)) || negb (truthy (lngColumn m))).
Qed.

(** C2: every point of [processPoints] has [-90 <= lat <= 90],
    [-180 <= lng <= 180] and is not the origin; a row whose two
    coordinates both parse to zero adds no point, and the row with cells
    ["0"] and ["0"], each a valid number, gives no point. *)
Theorem processPoints_invariant :
  (forall rows mapping p,
     In p (processPoints numberToString rows mapping) ->
     Num.le (Num.ofZ (-90)) (lat p) = true /\
     Num.le (lat p) (Num.ofZ 90) = true /\
     Num.le (Num.ofZ (-180)) (lng p) = true /\
     Num.le (lng p) (Num.ofZ 180) = true /\
     ~ (Num.strictEq (lat p) Num.zero = true /\
        Num.strictEq (lng p) Num.zero = true)) /\
  (forall m same row la ln acc,
     rowCoordinates numberToString m same row = (Some la, Some ln) ->
     Num.strictEq la Num.zero = true ->
     Num.strictEq ln Num.zero = true ->
     processRow numberToString m same acc row = acc) /\
  (cleanAndParse "0" = Some Num.zero /\
   processPoints numberToString [[("lat", CStr "0"); ("lng", CStr "0")]]
     (Some {| latColumn := Some "lat"; lngColumn := Some "lng" |}) = []).
Proof.
  split; [|split].
  - intros rows mapping p Hp. apply processPoints_point in Hp.
    destruct Hp as [Hvalid _]. unfold validCoordinates in Hvalid.
    apply andb_true_iff in Hvalid as [Hvalid Horigin].
    apply andb_true_iff in Hvalid as [Hvalid Hlng_max].
    apply andb_true_iff in Hvalid as [Hvalid Hlng_min].
    apply andb_true_iff in Hvalid as [Hlat_min Hlat_max].
    repeat split; try assumption.
    intros [Hlat Hlng]. unfold Num.strictNeq in Horigin.
    rewrite Hlat, Hlng in Horigin. discriminate.
  - intros m same row la ln acc Hrow Hla Hln.
    unfold processRow. rewrite Hrow.
    unfold validCoordinates, Num.strictNeq. rewrite Hla, Hln. simpl.
    now rewrite andb_false_r.
  - split; reflexivity.
Qed.

End ResolverFacts.

Lemma processPoints_inert_witness :
  processPoints (fun _ => "") [[("c", CStr "1;2")]]
    (Some {| latColumn := Some ""; lngColumn := Some "c" |}) = [].
Proof.
  apply (proj1 (processPoints_inert (fun _ => ""))).
  right. eexists. split; [reflexivity|]. left. reflexivity.
Defined.

Lemma processPoints_invariant_witness :
  Num.le (Num.ofZ (-90)) (Num.ofDecimal 407 1) = true /\
  Num.le (Num.ofDecimal 407 1) (Num.ofZ 90) = true /\
  Num.le (Num.ofZ (-180)) (Num.neg (Num.ofDecimal 740 1)) = true /\
  Num.le (Num.neg (Num.ofDecimal 740 1)) (Num.ofZ 180) = true /\
  ~ (Num.strictEq (Num.ofDecimal 407 1) Num.zero = true /\
     Num.strictEq (Num.neg (Num.ofDecimal 740 1)) Num.zero = true).
Proof.
  apply (proj1 (processPoints_invariant (fun _ => ""))
           [[("c", CStr "40.7;-74.0")]]
           (Some {| latColumn := Some "c"; lngColumn := Some "c" |})
           {| lat := Num.ofDecimal 407 1; lng := Num.neg (Num.ofDecimal 740 1);
              data := [("c", CStr "40.7;-74.0")] |}).
  vm_compute. left. reflexivity.
Defined.

(** * Combined-column mode *)

Section SplitFacts.








End SplitFacts.

Section CombinedMode.

Variable numberToString : number -> string.

Lemma processRow_combined m c row :
  latColumn m = Some c ->
  processRow numberToString m true [] row = combinedRowPoints numberToString c row.
Proof.
  intros Hlat. unfold processRow, rowCoordinates, combinedRowPoints.
  rewrite Hlat.
  destruct (Str.split isDelimiter (cellText numberToString row (Some c)))
    as [|first [|second more]]; reflexivity.
Qed.

(** C5: when [latColumn] equals [lngColumn], [processPoints] splits the
    cell's text on comma or semicolon, skips the row when fewer than two
    parts result, and otherwise parses the first two parts as latitude and
    longitude, whatever parts follow; the cell ["40.7;-74.0"] gives the
    point [(40.7, -74.0)]. *)
Theorem processPoints_combined_column :
  (forall rows m c,
     latColumn m = Some c -> lngColumn m = Some c -> c <> "" ->
     processPoints numberToString rows (Some m)
     = flat_map (combinedRowPoints numberToString c) rows) /\
  (forall c row,
     (length (Str.split isDelimiter (cellText numberToString row (Some c))) < 2)%nat ->
     combinedRowPoints numberToString c row = []) /\
  (forall c row first second more,
     Str.split isDelimiter (cellText numberToString row (Some c))
     = first :: second :: more ->
     combinedRowPoints numberToString c row
     = match cleanAndParse first, cleanAndParse second with
       | Some la, Some ln =>
           if validCoordinates la ln
           then [{| lat := la; lng := ln; data := row |}] else []
       | _, _ => []
       end) /\
  processPoints numberToString [[("c", CStr "40.7;-74.0")]]
    (Some {| latColumn := Some "c"; lngColumn := Some "c" |})
  = [{| lat := Num.ofDecimal 407 1; lng := Num.neg (Num.ofDecimal 740 1);
        data := [("c", CStr "40.7;-74.0")] |}].
Proof.
  split; [|split; [|split]].
  - intros rows m c Hlat Hlng Hc.
    assert (Htruthy : truthy (Some c) = true).
    { simpl. apply negb_true_iff, String.eqb_neq, Hc. }
    rewrite processPoints_configured by (rewrite ?Hlat, ?Hlng; exact Htruthy).
    rewrite Hlat, Hlng. simpl. rewrite String.eqb_refl.
    induction rows as [|row rows IH]; simpl; [reflexivity|].
    now rewrite IH, (processRow_combined m c row Hlat).
  - intros c row Hlen. unfold combinedRowPoints.
    destruct (Str.split isDelimiter (cellText numberToString row (Some c)))
      as [|first [|second more]]; simpl in Hlen; try reflexivity. lia.
  - intros c row first second more Hsplit. unfold combinedRowPoints.
    now rewrite Hsplit.
  - reflexivity.
Qed.


End CombinedMode.

Lemma processPoints_combined_column_witness :
  processPoints (fun _ => "") [[("c", CStr "40.7,-74.0,extra")]; [("c", CStr "12")]]
    (Some {| latColumn := Some "c"; lngColumn := Some "c" |})
  = flat_map (combinedRowPoints (fun _ => "") "c")
      [[("c", CStr "40.7,-74.0,extra")]; [("c", CStr "12")]].
Proof.
  apply (proj1 (processPoints_combined_column (fun _ => ""))); 
    [reflexivity | reflexivity | discriminate].
Defined.


(** * The scalar coordinate parser *)

Section ParserFacts.

Lemma isNegative_fires s :
  isNegative s = true <-> signRuleFires s.
Proof.
  unfold isNegative, signRuleFires.
  rewrite !orb_true_iff, !includesChar_occursIn.
  assert (Hminus : Str.startsWith "-" s = true <-> exists rest, s = String "-" rest).
  { rewrite startsWith_prefix. reflexivity. }
  tauto.
Qed.

Lemma cleanAndParse_unfold val :
  cleanAndParse val
  = let s := Str.toUpperCase (Str.trim val) in
    if String.eqb s "" then None
    else signedMagnitude (isNegative s)
           (parseFloat (stripNonNumeric (normalizeComma s))).
Proof. reflexivity. Qed.

Lemma signBit_neg_abs x : Num.isNaN x = false -> Num.signBit (Num.neg (Num.abs x)) = true.
Proof. now destruct x. Qed.

Lemma signBit_abs x : Num.signBit (Num.abs x) = false.
Proof. now destruct x. Qed.

Lemma lt_zero_neg_abs x :
  Num.isNaN x = false ->
  Num.lt (Num.neg (Num.abs x)) Num.zero = negb (Num.isZero x).
Proof. now destruct x. Qed.

Lemma lt_zero_abs x : Num.lt (Num.abs x) Num.zero = false.
Proof. now destruct x. Qed.

(** C3: a successful result of [cleanAndParse] has the sign bit set
    exactly when the trimmed, uppercased text contains [S] or [W] or
    starts with [-]; it is the absolute value of the number parsed from
    the cleaned text, negated exactly in that case, so it is below zero
    exactly when the rule fires and the magnitude is not zero.  The rule
    overrides a minus sign left in the cleaned text:
    [cleanAndParse "S48.85" = -48.85] and [cleanAndParse "N-48.85" = 48.85]. *)
Theorem cleanAndParse_sign :
  (forall val r,
     cleanAndParse val = Some r ->
     let s := Str.toUpperCase (Str.trim val) in
     let num := parseFloat (stripNonNumeric (normalizeComma s)) in
     Num.isNaN num = false /\
     (Num.signBit r = true <-> signRuleFires s) /\
     (signRuleFires s -> r = Num.neg (Num.abs num)) /\
     (~ signRuleFires s -> r = Num.abs num) /\
     (Num.lt r Num.zero = true <-> signRuleFires s /\ Num.isZero num = false)) /\
  cleanAndParse "S48.85" = Some (Num.neg (Num.ofDecimal 4885 2)) /\
  cleanAndParse "N-48.85" = Some (Num.ofDecimal 4885 2) /\
  cleanAndParse "-48.85" = Some (Num.neg (Num.ofDecimal 4885 2)).
Proof.
  split; [|repeat split; reflexivity].
  intros val r. rewrite cleanAndParse_unfold. cbv zeta.
  set (s := Str.toUpperCase (Str.trim val)).
  set (num := parseFloat (stripNonNumeric (normalizeComma s))).
  destruct (String.eqb s ""); [discriminate|].
  unfold signedMagnitude. destruct (Num.isNaN num) eqn:Hnan; [discriminate|].
  rewrite <- isNegative_fires.
  destruct (isNegative s); intros [= <-].
  - rewrite (signBit_neg_abs num Hnan), (lt_zero_neg_abs num Hnan), negb_true_iff.
    intuition congruence.
  - rewrite signBit_abs, lt_zero_abs. intuition congruence.
Qed.

Lemma replaceFirst_single c d s :
  Str.countChar c s = 1%nat ->
  exists before after,
    s = (before ++ String c after)%string /\
    Str.includesChar c before = false /\
    Str.includesChar c after = false /\
    Str.replaceFirst c d s = (before ++ String d after)%string.
Proof.
  induction s as [|x r IH]; simpl; [discriminate|].
  destruct (Ascii.eqb x c) eqn:Hx.
  - intros Hcount. apply Ascii.eqb_eq in Hx as ->.
    exists EmptyString, r. simpl. repeat split.
    apply countChar_zero. lia.
  - intros Hcount. destruct (IH Hcount) as (before & after & -> & Hb & Ha & Hrep).
    exists (String x before), after. simpl. rewrite Hx, Hb, Hrep. auto.
Qed.

(** C6: when the trimmed, uppercased text holds exactly one comma and no
    period, [cleanAndParse] turns that comma into a period and then cleans
    and parses; with no comma, with several, or with a period present the
    text is cleaned and parsed as it is.  [cleanAndParse "48,85" = 48.85]. *)
Theorem cleanAndParse_decimal_comma :
  (forall val,
     let s := Str.toUpperCase (Str.trim val) in
     Str.countChar "," s = 1%nat -> Str.includesChar "." s = false ->
     exists before after,
       s = (before ++ "," ++ after)%string /\
       Str.includesChar "," before = false /\
       Str.includesChar "," after = false /\
       normalizeComma s = (before ++ "." ++ after)%string /\
       cleanAndParse val
       = signedMagnitude (isNegative s)
           (parseFloat (stripNonNumeric (before ++ "." ++ after)%string))) /\
  (forall val,
     let s := Str.toUpperCase (Str.trim val) in
     Str.countChar "," s <> 1%nat \/ Str.includesChar "." s = true ->
     normalizeComma s = s /\
     cleanAndParse val
     = if String.eqb s "" then None
       else signedMagnitude (isNegative s) (parseFloat (stripNonNumeric s))) /\
  cleanAndParse "48,85" = Some (Num.ofDecimal 4885 2) /\
  cleanAndParse "48,85,12" = Some (Num.ofZ 488512) /\
  cleanAndParse "4885" = Some (Num.ofZ 4885).
Proof.
  split; [|split; [|repeat split; reflexivity]].
  - intros val s Hone Hperiod.
    destruct (replaceFirst_single "," "." s Hone)
      as (before & after & Hs & Hb & Ha & Hrep).
    assert (Hnorm : normalizeComma s = (before ++ "." ++ after)%string).
    { unfold normalizeComma. rewrite Hperiod, Hone.
      destruct (Str.includesChar "," s) eqn:Hinc; simpl; [exact Hrep|].
      apply countChar_zero in Hinc. lia. }
    exists before, after. repeat split; try assumption.
    rewrite cleanAndParse_unfold. cbv zeta. fold s. rewrite Hnorm.
    destruct (String.eqb s "") eqn:Hempty; [|reflexivity].
    apply String.eqb_eq in Hempty. rewrite Hempty in Hone. discriminate.
  - intros val s Hcount.
    assert (Hnorm : normalizeComma s = s).
    { unfold normalizeComma. destruct Hcount as [Hcount | Hperiod].
      - destruct (Str.includesChar "," s && negb (Str.includesChar "." s));
          [|reflexivity].
        now destruct (Nat.eqb_spec (Str.countChar "," s) 1).
      - now rewrite Hperiod, andb_false_r. }
    split; [exact Hnorm|].
    rewrite cleanAndParse_unfold. cbv zeta. fold s. now rewrite Hnorm.
Qed.

End ParserFacts.

Lemma cleanAndParse_sign_witness :
  Num.isNaN (Num.ofDecimal 4885 2) = false /\
  (Num.signBit (Num.neg (Num.ofDecimal 4885 2)) = true <-> signRuleFires "48.85 W") /\
  (signRuleFires "48.85 W" ->
   Num.neg (Num.ofDecimal 4885 2) = Num.neg (Num.abs (Num.ofDecimal 4885 2))) /\
  (~ signRuleFires "48.85 W" ->
   Num.neg (Num.ofDecimal 4885 2) = Num.abs (Num.ofDecimal 4885 2)) /\
  (Num.lt (Num.neg (Num.ofDecimal 4885 2)) Num.zero = true <->
   signRuleFires "48.85 W" /\ Num.isZero (Num.ofDecimal 4885 2) = false).
Proof.
  apply (proj1 cleanAndParse_sign " 48.85 w " (Num.neg (Num.ofDecimal 4885 2))).
  reflexivity.
Defined.

Lemma cleanAndParse_decimal_comma_witness :
  exists before after,
    "E 2,35" = (before ++ "," ++ after)%string /\
    Str.includesChar "," before = false /\
    Str.includesChar "," after = false /\
    normalizeComma "E 2,35" = (before ++ "." ++ after)%string /\
    cleanAndParse "e 2,35"
    = signedMagnitude (isNegative "E 2,35")
        (parseFloat (stripNonNumeric (before ++ "." ++ after)%string)).
Proof.
  apply (proj1 cleanAndParse_decimal_comma "e 2,35"); reflexivity.
Defined.

(** * The column mapping resolver *)

Section MappingFacts.

Lemma isLatHeader_candidate h : isLatHeader h = true <-> latCandidate h.
Proof.
  unfold isLatHeader, latCandidate. cbv zeta.
  rewrite !orb_true_iff, !includes_substringOf, !String.eqb_eq. tauto.
Qed.

Lemma isLngHeader_candidate h : isLngHeader h = true <-> lngCandidate h.
Proof.
  unfold isLngHeader, lngCandidate. cbv zeta.
  rewrite !orb_true_iff, !includes_substringOf, !String.eqb_eq. tauto.
Qed.

(** [Array.prototype.find] returns the first element that passes the
    test, and [undefined] when none does. *)
Lemma find_first (f : string -> bool) (P : string -> Prop) headers :
  (forall h, f h = true <-> P h) ->
  match List.find f headers with
  | Some h => firstCandidate P headers h
  | None => Forall (fun x => ~ P x) headers
  end.
Proof.
  intros Hf. induction headers as [|x rest IH]; simpl.
  - constructor.
  - destruct (f x) eqn:Hx.
    + exists [], rest. repeat split; [now apply Hf | constructor].
    + assert (Hnot : ~ P x) by (rewrite <- Hf; congruence).
      destruct (List.find f rest) as [h|].
      * destruct IH as (before & after & -> & Hh & Hbefore).
        exists (x :: before), after. repeat split; [exact Hh|].
        now constructor.
      * now constructor.
Qed.

(** The choice [found || headers[position]] when every header that passes
    the test is a non-empty string. *)
Lemma orElse_chosen (f : string -> bool) (P : string -> Prop) position headers :
  (forall h, f h = true <-> P h) -> f "" = false ->
  forall h, orElse (List.find f headers) (headers !! position) = Some h ->
            chosenColumn P position headers h.
Proof.
  intros Hf Hempty h. pose proof (find_first f P headers Hf) as Hfind.
  unfold orElse. destruct (List.find f headers) as [x|] eqn:Hx; simpl.
  - destruct (String.eqb_spec x "") as [-> | Hne]; simpl.
    + apply find_some in Hx as [_ Hx]. congruence.
    + intros [= <-]. left. exact Hfind.
  - intros Hpos. right. auto.
Qed.

Lemma lookup_In (headers : list string) i h : headers !! i = Some h -> In h headers.
Proof. intros H. apply list_elem_of_In, list_elem_of_lookup. eauto. Qed.

Lemma chosenColumn_In P position headers h :
  chosenColumn P position headers h -> In h headers.
Proof.
  intros [(before & after & -> & _) | [_ Hpos]].
  - apply in_or_app. right. now left.
  - eapply lookup_In, Hpos.
Qed.

Lemma fallbackMapping_chosen headers :
  (forall h, latColumn (fallbackMapping headers) = Some h ->
             chosenColumn latCandidate 0 headers h) /\
  (forall h, lngColumn (fallbackMapping headers) = Some h ->
             chosenColumn lngCandidate 1 headers h).
Proof.
  split; intros h; simpl.
  - apply orElse_chosen; [apply isLatHeader_candidate | reflexivity].
  - apply orElse_chosen; [apply isLngHeader_candidate | reflexivity].
Qed.



(** C1, as stated, fails: with an API key and a reply from the model,
    [identifyColumns] returns the reply as it is, although one of its
    column names is not among the headers. *)
Lemma identifyColumns_hint_not_revalidated :
  let headers := ["Name"; "Lat"; "Lng"] in
  let hint := {| latColumn := Some "Latitude"; lngColumn := Some "Lng" |} in
  identifyColumns "key" (Replied hint) headers = hint /\
  ~ In "Latitude" headers /\
  latColumn (identifyColumns "key" (Replied hint) headers) = Some "Latitude".
Proof.
  cbv zeta. split; [reflexivity | split; [|reflexivity]].
  simpl. intros [H | [H | [H | []]]]; discriminate.
Qed.

(** C1, amended: with an API key and a reply from the model,
    [identifyColumns] returns the reply verbatim, whatever the header
    list; without an API key, or when the call throws, it returns
    [fallbackMapping headers], whose column names are always taken from
    the header list. *)
Theorem identifyColumns_result :
  forall apiKey reply headers,
    (forall hint, apiKey <> "" -> reply = Replied hint ->
                  identifyColumns apiKey reply headers = hint) /\
    (apiKey = "" \/ reply = Threw ->
     identifyColumns apiKey reply headers = fallbackMapping headers) /\
    (forall c, latColumn (fallbackMapping headers) = Some c \/
               lngColumn (fallbackMapping headers) = Some c ->
               In c headers).
Proof.
  intros apiKey reply headers. split; [|split].
  - intros hint Hkey ->. unfold identifyColumns. simpl.
    now destruct (String.eqb_spec apiKey "").
  - intros [-> | ->]; [reflexivity|]. unfold identifyColumns.
    now destruct (negb (truthy (Some apiKey))).
  - destruct (fallbackMapping_chosen headers) as [Hlat Hlng].
    intros c [H | H]; eapply chosenColumn_In; eauto.
Qed.

End MappingFacts.


Lemma identifyColumns_result_witness :
  identifyColumns "key"
    (Replied {| latColumn := Some "Latitude"; lngColumn := Some "Lng" |})
    ["Name"; "Lat"; "Lng"]
  = {| latColumn := Some "Latitude"; lngColumn := Some "Lng" |}.
Proof.
  apply (proj1 (identifyColumns_result "key"
                  (Replied {| latColumn := Some "Latitude"; lngColumn := Some "Lng" |})
                  ["Name"; "Lat"; "Lng"]));
    [discriminate | reflexivity].
Defined.

(** * The categorical style assigner *)

Section StyleFacts.

Variable numberToString : number -> string.

Lemma filter_all (P : string -> Prop) `{forall x, Decision (P x)} (l : list string) :
  (forall x, x ∈ l -> P x) -> filter P l = l.
Proof.
  induction l as [|x l IH]; intros Hall; [reflexivity|].
  rewrite filter_cons. destruct (decide (P x)) as [_ | Hx].
  - f_equal. apply IH. intros y Hy. apply Hall. now right.
  - destruct Hx. apply Hall. now left.
Qed.

(** Reading a [Set] back gives its elements in order of first insertion. *)
Lemma fold_setAdd xs acc :
  fold_left setAdd xs acc
  = acc ++ filter (fun y => y ∉ acc) (firstOccurrences xs).
Proof.
  revert acc. induction xs as [|x rest IH]; intros acc.
  - simpl. now rewrite app_nil_r.
  - cbn [fold_left firstOccurrences]. unfold setAdd at 2.
    rewrite IH, filter_cons. case_bool_decide as Hx.
    + destruct (decide (x ∉ acc)) as [Hnot | _]; [contradiction|].
      f_equal. rewrite list_filter_filter. apply list_filter_iff.
      intros y. split; [intros Hy; split; [exact Hy | congruence] | tauto].
    + destruct (decide (x ∉ acc)) as [_ | Hin]; [|contradiction].
      rewrite <- app_assoc. simpl. do 2 f_equal.
      rewrite list_filter_filter. apply list_filter_iff.
      intros y. rewrite not_elem_of_app, list_elem_of_singleton. tauto.
Qed.

Lemma arrayFromSet_firstOccurrences xs : arrayFromSet xs = firstOccurrences xs.
Proof.
  unfold arrayFromSet. rewrite fold_setAdd. simpl.
  apply filter_all. intros x _. apply not_elem_of_nil.
Qed.

Lemma firstOccurrences_elem xs v : v ∈ firstOccurrences xs <-> v ∈ xs.
Proof.
  induction xs as [|x rest IH]; simpl; [reflexivity|].
  rewrite !elem_of_cons, list_elem_of_filter, IH.
  destruct (decide (v = x)); tauto.
Qed.

Lemma firstOccurrences_NoDup xs : NoDup (firstOccurrences xs).
Proof.
  induction xs as [|x rest IH]; simpl; [constructor|].
  apply NoDup_cons. split.
  - rewrite list_elem_of_filter. tauto.
  - now apply NoDup_filter.
Qed.

Lemma palette_defined i : is_Some (PALETTE !! (i mod length PALETTE)).
Proof.
  apply lookup_lt_is_Some_2, Nat.mod_upper_bound. discriminate.
Qed.

Lemma setProperty_other_key obj key value k :
  k <> key \/ key = "__proto__" ->
  ownProperties (setProperty obj key value) !! k = ownProperties obj !! k.
Proof.
  intros Hk. unfold setProperty.
  destruct (String.eqb_spec key "__proto__") as [Hproto | Hother]; [reflexivity|].
  simpl. apply lookup_insert_ne. destruct Hk; congruence.
Qed.

Lemma setProperty_same_key obj key value :
  key <> "__proto__" ->
  ownProperties (setProperty obj key value) !! key = Some value.
Proof.
  intros Hkey. unfold setProperty.
  destruct (String.eqb_spec key "__proto__") as [? | _]; [contradiction|].
  simpl. apply lookup_insert_eq.
Qed.

(** The loop over the distinct values: the value at position [n] gets the
    palette entry [(idx + n) mod length] as an own property, unless it is
    [__proto__], for which nothing is stored; other keys are untouched. *)
Lemma assignColors_lookup vals :
  forall idx (obj : PlainObject),
    NoDup vals ->
    (forall n v, vals !! n = Some v -> v <> "__proto__" ->
                 ownProperties (assignColors idx vals obj) !! v
                 = PALETTE !! ((idx + n) mod length PALETTE)) /\
    (forall v, v ∉ vals \/ v = "__proto__" ->
               ownProperties (assignColors idx vals obj) !! v
               = ownProperties obj !! v).
Proof.
  induction vals as [|val rest IH]; intros idx obj Hnodup.
  - split; [intros n v Hn; discriminate | reflexivity].
  - apply NoDup_cons in Hnodup as [Hfresh Hnodup].
    cbn [assignColors].
    destruct (palette_defined idx) as [color Hcolor]. rewrite Hcolor.
    destruct (IH (S idx) (setProperty obj val color) Hnodup) as [IHin IHout].
    split.
    + intros [|n] v Hn Hproto.
      * injection Hn as <-. rewrite (IHout val (or_introl Hfresh)).
        rewrite (setProperty_same_key obj val color Hproto).
        now rewrite Nat.add_0_r.
      * rewrite (IHin n v Hn Hproto). do 2 f_equal. lia.
    + intros v Hv.
      assert (Hrest : v ∉ rest \/ v = "__proto__").
      { destruct Hv as [Hv | Hv]; [left | now right].
        now apply not_elem_of_cons in Hv. }
      rewrite (IHout v Hrest). apply setProperty_other_key.
      destruct Hv as [Hv | ->].
      * left. now apply not_elem_of_cons in Hv.
      * destruct (decide (val = "__proto__")); [now right | left; congruence].
Qed.

Lemma uniqueValues_firstOccurrences rows columnName :
  uniqueValues numberToString rows columnName
  = firstOccurrences
      (List.map (fun r => cellText numberToString r (Some columnName)) rows).
Proof. apply arrayFromSet_firstOccurrences. Qed.

(** C8: the code breaks the claim on the value [__proto__].  For a column
    with the values [a], [__proto__], [b] the distinct values are these
    three in this order, and [handleApplyStyle] gives [a] the palette entry
    0 and [b] the entry 2, but stores nothing for [__proto__], the second
    distinct value, which the claim maps to entry 1: the assignment
    [colorMap["__proto__"] = ...] on an object literal is ignored, and
    reading that key gives the inherited prototype.  An empty column name
    clears the rule. *)
Theorem handleApplyStyle_proto_value :
  let st := {| isLoading := false; error := None;
               sheetData := [[("kind", CStr "a")]; [("kind", CStr "__proto__")];
                             [("kind", CStr "b")]];
               headers := ["kind"]; mapping := None; points := [];
               styleConfig := {| activeColumn := None; rule := None |};
               theme := light |} in
  exists colors,
    styleConfig (handleApplyStyle numberToString st "kind")
    = {| activeColumn := Some "kind";
         rule := Some {| column := "kind"; type := categorical;
                         colorMap := colors |} |} /\
    uniqueValues numberToString (sheetData st) "kind" = ["a"; "__proto__"; "b"] /\
    PALETTE !! (1 mod length PALETTE) = Some "#3b82f6" /\
    ownProperties colors !! "__proto__" = None /\
    getProperty colors "__proto__" = PropInherited "__proto__" /\
    getProperty colors "a" = PropText "#ef4444" /\
    getProperty colors "b" = PropText "#10b981" /\
    styleConfig (handleApplyStyle numberToString st "")
    = {| activeColumn := None; rule := None |}.
Proof.
  intros st.
  exists (assignColors 0 ["a"; "__proto__"; "b"] emptyObject).
  repeat split; vm_compute; reflexivity.
Qed.

End StyleFacts.

(** * The cluster aggregator *)

Section ClusterFacts.

Variable numberToString : number -> string.

(** The guard on [undefined], [null] and the empty string skips only
    members that would not parse anyway. *)
Lemma addMarker_memberNumber acc val :
  addMarker acc val
  = match memberNumber val with
    | Some num => (Num.add (fst acc) num, true)
    | None => acc
    end.
Proof.
  destruct val as [| |s]; try reflexivity.
  unfold addMarker, memberNumber.
  destruct (String.eqb_spec s "") as [-> | _]; [reflexivity|].
  now destruct (Num.isNaN (parseFloat (stripNonNumeric s))).
Qed.

Lemma fold_addMarker markers total seen :
  fold_left addMarker markers (total, seen)
  = (fold_left Num.add (omap memberNumber markers) total,
     seen || match omap memberNumber markers with [] => false | _ => true end).
Proof.
  revert total seen. induction markers as [|val rest IH]; intros total seen.
  - simpl. now rewrite orb_false_r.
  - cbn [fold_left]. rewrite addMarker_memberNumber.
    change (omap memberNumber (val :: rest))
      with (match memberNumber val with
            | Some num => num :: omap memberNumber rest
            | None => omap memberNumber rest
            end).
    destruct (memberNumber val) as [num|]; [|apply IH].
    cbn [fst]. rewrite IH. cbn [fold_left]. f_equal.
    now rewrite orb_true_r.
Qed.

Lemma displayValue_spec markers :
  displayValue markers = clusterDisplaySpec markers.
Proof.
  unfold displayValue, clusterDisplaySpec, renderSum.
  rewrite fold_addMarker.
  now destruct (omap memberNumber markers).
Qed.

Lemma omap_memberNumber_nil markers :
  omap memberNumber markers = [] <->
  forall val, In val markers -> memberNumber val = None.
Proof.
  induction markers as [|val rest IH].
  - split; [intros _ v [] | reflexivity].
  - change (omap memberNumber (val :: rest))
      with (match memberNumber val with
            | Some num => num :: omap memberNumber rest
            | None => omap memberNumber rest
            end).
    destruct (memberNumber val) as [num|] eqn:Hval.
    + split; [discriminate|]. intros Hall.
      specialize (Hall val (or_introl eq_refl)). congruence.
    + rewrite IH. split.
      * intros Hall v [<- | Hv]; auto.
      * intros Hall v Hv. apply Hall. now right.
Qed.

(** C4: when some member's highlight value, stripped of everything but
    digits, period and minus, parses as a number, the display value of the
    cluster is the sum of the members that parse, as a number when
    [sum % 1 === 0] and as the string [sum.toFixed(1)] otherwise; when no
    member parses it is the number of members.  Values ["10kg"], ["5kg"],
    ["bad"] give 15, and three values without a number give 3. *)
Theorem displayValue_sum :
  (forall markers val num,
     In val markers -> memberNumber val = Some num ->
     displayValue markers
     = renderSum (fold_left Num.add (omap memberNumber markers) Num.zero)) /\
  (forall markers,
     (forall val, In val markers -> memberNumber val = None) ->
     displayValue markers = DNumber (Num.ofZ (Z.of_nat (length markers)))) /\
  (forall sum,
     renderSum sum = if Num.strictEq (Num.rem1 sum) Num.zero
                     then DNumber sum else DString (Num.toFixed1 sum)) /\
  displayValue [Text "10kg"; Text "5kg"; Text "bad"] = DNumber (Num.ofZ 15) /\
  displayValue [Text "n/a"; Text ""; Text "bad"] = DNumber (Num.ofZ 3) /\
  displayValue [Text "10.5 t"; Text "0.25 t"] = DString "10.8" /\
  displayValue
    (List.map (fun p => Text (latentoValue numberToString p))
       [{| lat := Num.ofZ 1; lng := Num.ofZ 2;
           data := [("city", CStr "Oslo"); ("Latento", CStr "10kg")] |};
        {| lat := Num.ofZ 1; lng := Num.ofZ 3;
           data := [("city", CStr "Bergen"); ("Latento", CStr "5kg")] |};
        {| lat := Num.ofZ 1; lng := Num.ofZ 4;
           data := [("city", CStr "Moss"); ("Latento", CStr "bad")] |}])
  = DNumber (Num.ofZ 15).
Proof.
  split; [|split; [|repeat split; reflexivity]].
  - intros markers val num Hin Hval.
    rewrite displayValue_spec. unfold clusterDisplaySpec.
    destruct (omap memberNumber markers) eqn:Hnums; [|reflexivity].
    apply omap_memberNumber_nil with (val := val) in Hnums; [congruence | exact Hin].
  - intros markers Hnone.
    rewrite displayValue_spec. unfold clusterDisplaySpec.
    apply omap_memberNumber_nil in Hnone. now rewrite Hnone.
Qed.

End ClusterFacts.

Lemma displayValue_sum_witness :
  displayValue [Text "1.5"; Text "x"; Text "-0.25"]
  = renderSum (fold_left Num.add
                 (omap memberNumber [Text "1.5"; Text "x"; Text "-0.25"]) Num.zero).
Proof.
  apply (proj1 (displayValue_sum (fun _ => ""))
           [Text "1.5"; Text "x"; Text "-0.25"] (Text "1.5") (Num.ofDecimal 15 1)).
  - left. reflexivity.
  - reflexivity.
Defined.

(** * More on the row-to-point resolver *)

Section ResolverMore.

Variable numberToString : number -> string.

Lemma processRow_cases m same row :
  processRow numberToString m same [] row = [] \/
  exists la ln,
    processRow numberToString m same [] row
    = [{| lat := la; lng := ln; data := row |}].
Proof.
  unfold processRow.
  destruct (rowCoordinates numberToString m same row) as [[la|] [ln|]]; auto.
  destruct (validCoordinates la ln); eauto.
Qed.

Lemma flat_map_processRow_sublist m same rows :
  List.map data (flat_map (processRow numberToString m same []) rows)
    `sublist_of` rows.
Proof.
  induction rows as [|row rows IH]; simpl; [constructor|].
  destruct (processRow_cases m same row) as [-> | (la & ln & ->)]; simpl.
  - now apply sublist_cons.
  - now apply sublist_skip.
Qed.

(** X1: the rows behind the points of [processPoints] form a subsequence
    of the input rows: input order is kept, a row gives at most one point,
    and there are never more points than rows. *)
Theorem processPoints_subsequence rows mapping :
  List.map data (processPoints numberToString rows mapping) `sublist_of` rows /\
  (length (processPoints numberToString rows mapping) <= length rows)%nat.
Proof.
  assert (Hsub : List.map data (processPoints numberToString rows mapping)
                   `sublist_of` rows).
  { unfold processPoints. destruct mapping as [m|]; [|apply sublist_nil_l].
    destruct (negb (truthy (latColumn m)) || negb (truthy (lngColumn m)));
      [apply sublist_nil_l|].
    rewrite (fold_processRow numberToString m _ rows []). simpl.
    apply flat_map_processRow_sublist. }
  split; [exact Hsub|].
  apply sublist_length in Hsub. now rewrite length_map in Hsub.
Qed.

(** X2: rows are resolved independently of each other: the points of a
    concatenation are the points of the first part followed by the points
    of the second. *)
Theorem processPoints_app rows1 rows2 mapping :
  processPoints numberToString (rows1 ++ rows2) mapping
  = processPoints numberToString rows1 mapping
    ++ processPoints numberToString rows2 mapping.
Proof.
  unfold processPoints. destruct mapping as [m|]; [|reflexivity].
  destruct (negb (truthy (latColumn m)) || negb (truthy (lngColumn m)));
    [reflexivity|].
  rewrite !(fold_processRow numberToString m _ _ []). simpl.
  apply flat_map_app.
Qed.

Lemma processRow_dual m a b row :
  latColumn m = Some a -> lngColumn m = Some b ->
  processRow numberToString m false [] row = dualRowPoints numberToString a b row.
Proof.
  intros Hlat Hlng. unfold processRow, rowCoordinates, dualRowPoints.
  rewrite Hlat, Hlng. reflexivity.
Qed.

(** X3: with two different, non-empty column names the two cells of a row
    are parsed independently, and the row gives a point exactly when both
    parse and the pair is in range.  Here a comma in a cell is a decimal
    comma: the cells ["48,85"] and ["2,35"] give the point [(48.85, 2.35)]. *)
Theorem processPoints_dual_column :
  (forall rows m a b,
     latColumn m = Some a -> lngColumn m = Some b ->
     a <> "" -> b <> "" -> a <> b ->
     processPoints numberToString rows (Some m)
     = flat_map (dualRowPoints numberToString a b) rows) /\
  processPoints numberToString [[("lat", CStr "48,85"); ("lng", CStr "2,35")]]
    (Some {| latColumn := Some "lat"; lngColumn := Some "lng" |})
  = [{| lat := Num.ofDecimal 4885 2; lng := Num.ofDecimal 235 2;
        data := [("lat", CStr "48,85"); ("lng", CStr "2,35")] |}].
Proof.
  split; [|reflexivity].
  intros rows m a b Hlat Hlng Ha Hb Hab.
  rewrite processPoints_configured;
    try (rewrite ?Hlat, ?Hlng; simpl; now apply negb_true_iff, String.eqb_neq).
  rewrite Hlat, Hlng. simpl.
  destruct (String.eqb_spec a b) as [? | _]; [contradiction|].
  induction rows as [|row rows IH]; simpl; [reflexivity|].
  now rewrite IH, (processRow_dual m a b row Hlat Hlng).
Qed.

(** X4: a row that lacks the latitude column or the longitude column gives
    no point, in both modes: the missing cell reads as the text
    [undefined], which holds no number and no delimiter. *)
Theorem processPoints_missing_cell rows m a b :
  latColumn m = Some a -> lngColumn m = Some b ->
  (forall row, In row rows -> getCell row a = None \/ getCell row b = None) ->
  processPoints numberToString rows (Some m) = [].
Proof.
  intros Hlat Hlng Hmissing. unfold processPoints.
  destruct (negb (truthy (latColumn m)) || negb (truthy (lngColumn m)));
    [reflexivity|].
  rewrite (fold_processRow numberToString m _ rows []). simpl.
  rewrite Hlat, Hlng. simpl.
  induction rows as [|row rows IH]; simpl; [reflexivity|].
  rewrite IH by (intros r Hr; apply Hmissing; now right). rewrite app_nil_r.
  specialize (Hmissing row (or_introl eq_refl)).
  unfold processRow, rowCoordinates. rewrite Hlat, Hlng.
  destruct (String.eqb_spec a b) as [<- | _].
  - assert (Ha : getCell row a = None) by tauto.
    unfold cellText. now rewrite Ha.
  - unfold cellText. destruct Hmissing as [Ha | Hb].
    + now rewrite Ha.
    + rewrite Hb. change (cleanAndParse "undefined") with (@None number).
      now destruct (cleanAndParse _).
Qed.



End ResolverMore.

Lemma processPoints_dual_column_witness :
  processPoints (fun _ => "")
    [[("y", CStr "10"); ("x", CStr "W 20")]; [("y", CStr "95"); ("x", CStr "1")]]
    (Some {| latColumn := Some "y"; lngColumn := Some "x" |})
  = flat_map (dualRowPoints (fun _ => "") "y" "x")
      [[("y", CStr "10"); ("x", CStr "W 20")]; [("y", CStr "95"); ("x", CStr "1")]].
Proof.
  apply (proj1 (processPoints_dual_column (fun _ => "")));
    [reflexivity | reflexivity | discriminate | discriminate | discriminate].
Defined.

Lemma processPoints_missing_cell_witness :
  processPoints (fun _ => "")
    [[("lat", CStr "10")]; [("lng", CStr "20")]]
    (Some {| latColumn := Some "lat"; lngColumn := Some "lng" |}) = [].
Proof.
  apply (processPoints_missing_cell (fun _ => "") _ _ "lat" "lng");
    [reflexivity | reflexivity |].
  intros row [<- | [<- | []]]; [right | left]; reflexivity.
Defined.


(** * More on the scalar parser *)

Section ParserMore.

Lemma isSpace_upperChar c : Str.isSpace (Str.upperChar c) = Str.isSpace c.
Proof. destruct c as [[] [] [] [] [] [] [] []]; reflexivity. Qed.

Lemma isSpace_lowerChar c : Str.isSpace (Str.lowerChar c) = Str.isSpace c.
Proof. destruct c as [[] [] [] [] [] [] [] []]; reflexivity. Qed.

Lemma upperChar_idem c : Str.upperChar (Str.upperChar c) = Str.upperChar c.
Proof. destruct c as [[] [] [] [] [] [] [] []]; reflexivity. Qed.

Lemma upperChar_lowerChar c : Str.upperChar (Str.lowerChar c) = Str.upperChar c.
Proof. destruct c as [[] [] [] [] [] [] [] []]; reflexivity. Qed.

Lemma isDigit_upperChar c : Str.isDigit (Str.upperChar c) = Str.isDigit c.
Proof. destruct c as [[] [] [] [] [] [] [] []]; reflexivity. Qed.

Lemma map_map_char f g s : Str.map f (Str.map g s) = Str.map (fun c => f (g c)) s.
Proof. induction s as [|c r IH]; simpl; [reflexivity | now rewrite IH]. Qed.

Lemma map_ext_char f g s : (forall c, f c = g c) -> Str.map f s = Str.map g s.
Proof.
  intros Hfg. induction s as [|c r IH]; simpl; [reflexivity|].
  now rewrite Hfg, IH.
Qed.

(** Trimming commutes with a character map that keeps white space white
    space and everything else something else. *)
Lemma trimStart_map f s :
  (forall c, Str.isSpace (f c) = Str.isSpace c) ->
  Str.trimStart (Str.map f s) = Str.map f (Str.trimStart s).
Proof.
  intros Hf. induction s as [|c r IH]; simpl; [reflexivity|].
  rewrite Hf. now destruct (Str.isSpace c).
Qed.

Lemma trimEnd_map f s :
  (forall c, Str.isSpace (f c) = Str.isSpace c) ->
  Str.trimEnd (Str.map f s) = Str.map f (Str.trimEnd s).
Proof.
  intros Hf. induction s as [|c r IH]; simpl; [reflexivity|].
  rewrite IH, Hf. destruct (Str.trimEnd r); simpl; [|reflexivity].
  now destruct (Str.isSpace c).
Qed.

Lemma trim_map f s :
  (forall c, Str.isSpace (f c) = Str.isSpace c) ->
  Str.trim (Str.map f s) = Str.map f (Str.trim s).
Proof.
  intros Hf. unfold Str.trim. now rewrite trimStart_map, trimEnd_map.
Qed.

Lemma allSpaces_cons c r :
  allSpaces (String c r) -> Str.isSpace c = true /\ allSpaces r.
Proof.
  intros Hall. split.
  - apply Hall. now left.
  - intros d Hd. apply Hall. now right.
Qed.

Lemma trimStart_spaces ws : allSpaces ws -> Str.trimStart ws = "".
Proof.
  induction ws as [|c r IH]; [reflexivity|].
  intros Hall. apply allSpaces_cons in Hall as [Hc Hr]. simpl.
  rewrite Hc. auto.
Qed.

Lemma trimEnd_spaces ws : allSpaces ws -> Str.trimEnd ws = "".
Proof.
  induction ws as [|c r IH]; [reflexivity|].
  intros Hall. apply allSpaces_cons in Hall as [Hc Hr]. simpl.
  now rewrite (IH Hr), Hc.
Qed.

Lemma trimStart_spaces_app ws s :
  allSpaces ws -> Str.trimStart (ws ++ s)%string = Str.trimStart s.
Proof.
  induction ws as [|c r IH]; [reflexivity|].
  intros Hall. apply allSpaces_cons in Hall as [Hc Hr]. simpl.
  rewrite Hc. auto.
Qed.

Lemma trimEnd_app_spaces s ws :
  allSpaces ws -> Str.trimEnd (s ++ ws)%string = Str.trimEnd s.
Proof.
  intros Hall. induction s as [|c r IH]; simpl.
  - now apply trimEnd_spaces.
  - now rewrite IH.
Qed.

Lemma trim_app_spaces s ws :
  allSpaces ws -> Str.trim (s ++ ws)%string = Str.trim s.
Proof.
  intros Hall. unfold Str.trim. induction s as [|c r IH].
  - change ("" ++ ws)%string with ws. now rewrite (trimStart_spaces ws Hall).
  - change (String c r ++ ws)%string with (String c (r ++ ws)%string).
    cbn [Str.trimStart]. destruct (Str.isSpace c); [exact IH|].
    apply (trimEnd_app_spaces (String c r) ws Hall).
Qed.

(** X6: on a text of ASCII characters [cleanAndParse] does not depend on
    the case of letters; and white space (TAB to CR, SPACE) added around
    any text does not change its result.  Outside ASCII the case mappings
    of the program can create or remove an [S], so the first part is
    stated for ASCII texts only. *)
Theorem cleanAndParse_case_and_padding :
  (forall val,
     isAscii val ->
     cleanAndParse (Str.toUpperCase val) = cleanAndParse val /\
     cleanAndParse (Str.toLowerCase val) = cleanAndParse val) /\
  (forall before val after,
     allSpaces before -> allSpaces after ->
     cleanAndParse (before ++ val ++ after)%string = cleanAndParse val).
Proof.
  split.
  - intros val _. rewrite !cleanAndParse_unfold. cbv zeta.
    unfold Str.toUpperCase, Str.toLowerCase.
    rewrite (trim_map Str.upperChar val isSpace_upperChar).
    rewrite (trim_map Str.lowerChar val isSpace_lowerChar).
    rewrite !map_map_char.
    rewrite (map_ext_char _ Str.upperChar (Str.trim val) upperChar_idem).
    rewrite (map_ext_char (fun c => Str.upperChar (Str.lowerChar c))
               Str.upperChar (Str.trim val) upperChar_lowerChar).
    split; reflexivity.
  - intros before val after Hbefore Hafter. rewrite !cleanAndParse_unfold.
    cbv zeta.
    assert (Htrim : Str.trim (before ++ val ++ after)%string = Str.trim val).
    { unfold Str.trim at 1. rewrite (trimStart_spaces_app before _ Hbefore).
      apply (trim_app_spaces val after Hafter). }
    now rewrite Htrim.
Qed.

Lemma countIf_zero f s :
  countIf f s = 0%nat <-> forall c, occursIn c s -> f c = false.
Proof.
  unfold occursIn. induction s as [|d r IH]; simpl.
  - split; [intros _ c [] | reflexivity].
  - destruct (f d) eqn:Hd; simpl.
    + split; [discriminate|]. intros Hall.
      specialize (Hall d (or_introl eq_refl)). congruence.
    + rewrite IH. split.
      * intros Hall c [<- | Hc]; auto.
      * intros Hall c Hc. apply Hall. now right.
Qed.

Lemma noDigits_cons c r :
  countIf Str.isDigit (String c r) = 0%nat ->
  Str.isDigit c = false /\ countIf Str.isDigit r = 0%nat.
Proof. simpl. destruct (Str.isDigit c); [discriminate | auto]. Qed.

Lemma noDigits_trimStart s :
  countIf Str.isDigit s = 0%nat -> countIf Str.isDigit (Str.trimStart s) = 0%nat.
Proof.
  induction s as [|c r IH]; [trivial|].
  intros H. simpl. destruct (Str.isSpace c); [|exact H].
  apply IH. now apply noDigits_cons in H.
Qed.

Lemma noDigits_trimEnd s :
  countIf Str.isDigit s = 0%nat -> countIf Str.isDigit (Str.trimEnd s) = 0%nat.
Proof.
  induction s as [|c r IH]; [trivial|].
  intros H. apply noDigits_cons in H as [Hc Hr]. specialize (IH Hr). simpl.
  destruct (Str.trimEnd r) as [|d r'].
  - destruct (Str.isSpace c); simpl; [reflexivity | now rewrite Hc].
  - cbn [countIf] in *. now rewrite Hc.
Qed.

Lemma noDigits_map f s :
  (forall c, Str.isDigit (f c) = Str.isDigit c) ->
  countIf Str.isDigit (Str.map f s) = countIf Str.isDigit s.
Proof.
  intros Hf. induction s as [|c r IH]; simpl; [reflexivity|].
  now rewrite Hf, IH.
Qed.

Lemma noDigits_replaceFirst s :
  countIf Str.isDigit s = 0%nat ->
  countIf Str.isDigit (Str.replaceFirst "," "." s) = 0%nat.
Proof.
  induction s as [|c r IH]; [trivial|].
  intros H. apply noDigits_cons in H as [Hc Hr]. simpl.
  destruct (Ascii.eqb c ","); simpl; [exact Hr|].
  rewrite Hc. auto.
Qed.

Lemma noDigits_filter f s :
  countIf Str.isDigit s = 0%nat -> countIf Str.isDigit (Str.filter f s) = 0%nat.
Proof.
  induction s as [|c r IH]; [trivial|].
  intros H. apply noDigits_cons in H as [Hc Hr]. simpl.
  destruct (f c); simpl; [rewrite Hc|]; auto.
Qed.

Lemma spanDigits_noDigits s :
  countIf Str.isDigit s = 0%nat -> Str.spanDigits s = ("", s).
Proof.
  destruct s as [|c r]; [reflexivity|].
  intros H. apply noDigits_cons in H as [Hc _]. simpl. now rewrite Hc.
Qed.

Lemma parseUnsigned_noDigits s :
  countIf Str.isDigit s = 0%nat -> parseUnsigned s = None.
Proof.
  intros H. unfold parseUnsigned. rewrite (spanDigits_noDigits s H).
  destruct s as [|c r]; [reflexivity|].
  apply noDigits_cons in H as [_ Hr].
  destruct (Ascii.eqb_spec c ".") as [-> | Hne].
  - now rewrite (spanDigits_noDigits r Hr).
  - destruct c as [[] [] [] [] [] [] [] []]; try reflexivity. congruence.
Qed.

Lemma parseFloat_noDigits s :
  countIf Str.isDigit s = 0%nat -> parseFloat s = Num.NaN.
Proof.
  intros H. unfold parseFloat.
  assert (Hs : parseUnsigned s = None) by now apply parseUnsigned_noDigits.
  destruct s as [|c r]; [reflexivity|].
  destruct (Ascii.eqb_spec c "-") as [-> | Hne].
  - apply noDigits_cons in H as [_ Hr].
    now rewrite (parseUnsigned_noDigits r Hr).
  - rewrite Hs. destruct c as [[] [] [] [] [] [] [] []]; try reflexivity.
    congruence.
Qed.

Lemma isNaN_neg_abs x : Num.isNaN (Num.neg (Num.abs x)) = Num.isNaN x.
Proof. now destruct x. Qed.

Lemma isNaN_abs x : Num.isNaN (Num.abs x) = Num.isNaN x.
Proof. now destruct x. Qed.

(** X7: a text without any decimal digit is rejected, whatever letters
    and signs it holds, and a successful result is never [NaN]. *)
Theorem cleanAndParse_needs_digit :
  (forall val,
     (forall c, occursIn c val -> Str.isDigit c = false) ->
     cleanAndParse val = None) /\
  (forall val r, cleanAndParse val = Some r -> Num.isNaN r = false).
Proof.
  split.
  - intros val Hnone. apply countIf_zero in Hnone.
    rewrite cleanAndParse_unfold. cbv zeta.
    set (s := Str.toUpperCase (Str.trim val)).
    assert (Hs : countIf Str.isDigit s = 0%nat).
    { unfold s, Str.toUpperCase, Str.trim.
      rewrite (noDigits_map _ _ isDigit_upperChar).
      now apply noDigits_trimEnd, noDigits_trimStart. }
    destruct (String.eqb s ""); [reflexivity|].
    assert (Hnorm : countIf Str.isDigit (normalizeComma s) = 0%nat).
    { unfold normalizeComma.
      destruct (Str.includesChar "," s && negb (Str.includesChar "." s));
        [|exact Hs].
      destruct (Str.countChar "," s =? 1)%nat; [|exact Hs].
      now apply noDigits_replaceFirst. }
    unfold signedMagnitude, stripNonNumeric.
    now rewrite (parseFloat_noDigits _ (noDigits_filter isNumericChar _ Hnorm)).
  - intros val r. rewrite cleanAndParse_unfold. cbv zeta.
    destruct (String.eqb _ ""); [discriminate|].
    unfold signedMagnitude.
    destruct (Num.isNaN (parseFloat _)) eqn:Hnan; [discriminate|].
    destruct (isNegative _); intros [= <-].
    + now rewrite isNaN_neg_abs.
    + now rewrite isNaN_abs.
Qed.

Lemma leb_abs_bound x mb eb :
  SFleb (S754_finite true mb eb) x && SFleb x (S754_finite false mb eb)
  = SFleb (SFabs x) (S754_finite false mb eb).
Proof.
  destruct x as [[] | [] | | [] m e]; try reflexivity.
  unfold SFleb. simpl. rewrite andb_true_r.
  rewrite (Z.compare_antisym eb e).
  destruct (eb ?= e)%Z; simpl; try reflexivity.
  assert (Hanti : Pos.compare_cont Eq m mb = CompOpp (Pos.compare_cont Eq mb m)).
  { symmetry. exact (Pos.compare_cont_antisym mb m Eq). }
  change (PosDef.Pos.compare_cont Eq m mb) with (Pos.compare_cont Eq m mb).
  rewrite Hanti. reflexivity.
Qed.

Lemma strictNeq_abs x :
  Num.strictNeq (Num.abs x) Num.zero = Num.strictNeq x Num.zero.
Proof. now destruct x as [[] | [] | | [] m e]. Qed.

Lemma abs_neg x : Num.abs (Num.neg x) = Num.abs x.
Proof. now destruct x. Qed.

Lemma validCoordinates_abs la ln :
  validCoordinates la ln = validCoordinates (Num.abs la) (Num.abs ln).
Proof.
  unfold validCoordinates, Num.ge, Num.le.
  change (Num.neg (Num.ofZ 90)) with (S754_finite true 6333186975989760 (-46)).
  change (Num.ofZ 90) with (S754_finite false 6333186975989760 (-46)).
  change (Num.neg (Num.ofZ 180)) with (S754_finite true 6333186975989760 (-45)).
  change (Num.ofZ 180) with (S754_finite false 6333186975989760 (-45)).
  rewrite !strictNeq_abs.
  rewrite <- !andb_assoc.
  rewrite (andb_assoc (SFleb _ (Num.abs ln))), (andb_assoc (SFleb _ ln)).
  rewrite !andb_assoc.
  rewrite (leb_abs_bound la), (leb_abs_bound (Num.abs la)).
  rewrite <- !andb_assoc.
  rewrite (andb_assoc (SFleb _ ln)), (andb_assoc (SFleb _ (Num.abs ln))).
  rewrite (leb_abs_bound ln), (leb_abs_bound (Num.abs ln)).
  unfold Num.abs. now destruct la, ln.
Qed.

(** X8: the range guard of [processPoints] is symmetric in both signs:
    whether a pair of coordinates is accepted depends only on the two
    absolute values, so a wrong hemisphere sign mirrors a point and never
    drops it. *)
Theorem validCoordinates_mirror la ln :
  validCoordinates la ln = validCoordinates (Num.abs la) (Num.abs ln) /\
  validCoordinates (Num.neg la) ln = validCoordinates la ln /\
  validCoordinates la (Num.neg ln) = validCoordinates la ln.
Proof.
  split; [apply validCoordinates_abs|].
  split.
  - now rewrite (validCoordinates_abs (Num.neg la)), abs_neg,
      <- validCoordinates_abs.
  - now rewrite (validCoordinates_abs la (Num.neg ln)), abs_neg,
      <- validCoordinates_abs.
Qed.

End ParserMore.

Lemma cleanAndParse_case_and_padding_witness :
  (cleanAndParse (Str.toUpperCase "48,85 s") = cleanAndParse "48,85 s" /\
   cleanAndParse (Str.toLowerCase "48,85 s") = cleanAndParse "48,85 s") /\
  cleanAndParse ("  " ++ "48,85 s" ++ " ")%string = cleanAndParse "48,85 s".
Proof.
  split.
  - apply (proj1 cleanAndParse_case_and_padding "48,85 s").
    intros c Hc; unfold occursIn in Hc; simpl in Hc;
      intuition (subst; vm_compute; lia).
  - apply (proj2 cleanAndParse_case_and_padding "  " "48,85 s" " ");
      intros c Hc; unfold occursIn in Hc; simpl in Hc;
      intuition (subst; reflexivity).
Defined.

Lemma cleanAndParse_needs_digit_witness : cleanAndParse "W -.," = None.
Proof.
  apply (proj1 cleanAndParse_needs_digit).
  intros c Hc; unfold occursIn in Hc; simpl in Hc;
    intuition (subst; reflexivity).
Defined.

(** * The state handlers *)

Section HandlerFacts.

Variable numberToString : number -> string.

(** X9: in every state the handlers produce, the plotted points are the
    ones [processPoints] gives for the state's rows and mapping: the
    initial state has this property, [handleFetch] with a URL and
    [updateMapping] establish it, and [swapMapping], [handleApplyStyle],
    [toggleTheme] and [handleFetch] without a URL keep it. *)
Theorem handlers_keep_points_consistent :
  (forall storedTheme, consistent numberToString (initialState storedTheme)) /\
  (forall st targetUrl outcome,
     targetUrl <> "" ->
     consistent numberToString (handleFetch numberToString st targetUrl outcome)) /\
  (forall st targetUrl outcome,
     consistent numberToString st ->
     consistent numberToString (handleFetch numberToString st targetUrl outcome)) /\
  (forall st type column,
     consistent numberToString (updateMapping numberToString st type column)) /\
  (forall st,
     consistent numberToString st ->
     consistent numberToString (swapMapping numberToString st)) /\
  (forall st columnName,
     consistent numberToString st ->
     consistent numberToString (handleApplyStyle numberToString st columnName)) /\
  (forall st,
     consistent numberToString st -> consistent numberToString (toggleTheme st)).
Proof.
  assert (Hfetch : forall st targetUrl outcome,
            targetUrl <> "" ->
            consistent numberToString
              (handleFetch numberToString st targetUrl outcome)).
  { intros st targetUrl outcome Hurl. unfold handleFetch. simpl.
    destruct (String.eqb_spec targetUrl "") as [? | _]; [contradiction|].
    now destruct outcome. }
  repeat split.
  - exact Hfetch.
  - intros st targetUrl outcome Hst.
    destruct (String.eqb_spec targetUrl "") as [-> | Hurl];
      [exact Hst | now apply Hfetch].
  - intros st. unfold swapMapping. now destruct (mapping st).
  - intros st columnName Hst. unfold handleApplyStyle.
    now destruct (String.eqb columnName "").
  - intros st Hst. exact Hst.
Qed.

Lemma columnMapping_eta m :
  {| latColumn := latColumn m; lngColumn := lngColumn m |} = m.
Proof. now destruct m. Qed.

(** X10: [swapMapping] leaves a state without mapping as it is; on a
    state whose points are consistent, swapping twice gives the state
    back; and when both names are the same column the swap keeps mapping
    and points. *)
Theorem swapMapping_involution :
  (forall st, mapping st = None -> swapMapping numberToString st = st) /\
  (forall st,
     consistent numberToString st ->
     swapMapping numberToString (swapMapping numberToString st) = st) /\
  (forall st m,
     consistent numberToString st ->
     mapping st = Some m -> latColumn m = lngColumn m ->
     swapMapping numberToString st = st).
Proof.
  split; [|split].
  - intros st Hnone. unfold swapMapping. now rewrite Hnone.
  - intros st Hst. unfold consistent in Hst.
    destruct st as [loading err rows hs [[a b]|] pts style th];
      simpl in Hst; [|reflexivity].
    subst pts. reflexivity.
  - intros st m Hst Hm Hsame. unfold consistent in Hst.
    destruct st as [loading err rows hs mp pts style th].
    simpl in Hst, Hm. subst mp pts. destruct m as [a b].
    simpl in Hsame. subst b. reflexivity.
Qed.

(** X11: [updateMapping] on a state without mapping sets the chosen side
    and leaves the other name empty, so no point is plotted yet; choosing
    latitude and longitude columns in either order gives the same state,
    with both names set; and a second choice for a side replaces the
    first. *)
Theorem updateMapping_choices :
  (forall st type column,
     mapping st = None ->
     points (updateMapping numberToString st type column) = []) /\
  (forall st a b,
     updateMapping numberToString (updateMapping numberToString st sideLat a) sideLng b
     = updateMapping numberToString (updateMapping numberToString st sideLng b) sideLat a /\
     mapping (updateMapping numberToString
                (updateMapping numberToString st sideLat a) sideLng b)
     = Some {| latColumn := Some a; lngColumn := Some b |}) /\
  (forall st type a b,
     updateMapping numberToString (updateMapping numberToString st type a) type b
     = updateMapping numberToString st type b).
Proof.
  split; [|split].
  - intros st type column Hnone. unfold updateMapping, setMapping.
    rewrite Hnone. destruct type; simpl; [now rewrite orb_true_r | reflexivity].
  - intros st a b. unfold updateMapping, setMapping. simpl. auto.
  - intros st type a b. unfold updateMapping, setMapping. simpl.
    now destruct type.
Qed.

End HandlerFacts.

Lemma handlers_keep_points_consistent_witness :
  consistent (fun _ => "")
    (handleFetch (fun _ => "") (initialState light) "https://sheet"
       (FetchLoaded ["lat"; "lng"] [[("lat", CStr "10"); ("lng", CStr "20")]]
          "" Threw)).
Proof.
  apply (proj1 (proj2 (handlers_keep_points_consistent (fun _ => "")))).
  discriminate.
Defined.

Lemma swapMapping_involution_witness :
  let st := updateMapping (fun _ => "")
              (updateMapping (fun _ => "")
                 (handleFetch (fun _ => "") (initialState light) "u"
                    (FetchLoaded ["a"; "b"]
                       [[("a", CStr "10"); ("b", CStr "120")]] "" Threw))
                 sideLat "a") sideLng "b" in
  swapMapping (fun _ => "") (swapMapping (fun _ => "") st) = st.
Proof.
  intros st. apply (proj1 (proj2 (swapMapping_involution (fun _ => "")))).
  reflexivity.
Defined.

Lemma updateMapping_choices_witness :
  points (updateMapping (fun _ => "") (initialState dark) sideLat "lat") = [].
Proof.
  apply (proj1 (updateMapping_choices (fun _ => ""))). reflexivity.
Defined.

(** * Marker colours *)

Section ColourFacts.

Variable numberToString : number -> string.

Lemma palette_nonempty_entries i color :
  PALETTE !! i = Some color -> truthy (Some color) = true.
Proof.
  intros Hi.
  assert (Hall : Forall (fun c => truthy (Some c) = true) PALETTE).
  { unfold PALETTE. repeat constructor. }
  exact (proj1 (Forall_lookup _ _) Hall i color Hi).
Qed.

Lemma handleApplyStyle_styleConfig st columnName :
  columnName <> "" ->
  styleConfig (handleApplyStyle numberToString st columnName)
  = {| activeColumn := Some columnName;
       rule := Some {| column := columnName; type := categorical;
                       colorMap :=
                         assignColors 0
                           (firstOccurrences
                              (List.map (fun r => cellText numberToString r
                                                    (Some columnName))
                                        (sheetData st))) emptyObject |} |}.
Proof.
  intros Hname. unfold handleApplyStyle.
  destruct (String.eqb_spec columnName "") as [? | _]; [contradiction|].
  simpl. now rewrite uniqueValues_firstOccurrences.
Qed.

(** X12: after [handleApplyStyle] on a column, [getMarkerColor] gives a
    point made from a row of the sheet the palette entry of its value,
    entry [n mod 10] for the [n]-th distinct value, unless the value is
    the text [__proto__]: for it nothing was stored, and the lookup
    returns the inherited prototype instead of a colour.  After the rule
    has been cleared every marker has [DEFAULT_COLOR]. *)
Theorem getMarkerColor_after_style :
  (forall st columnName p,
     columnName <> "" -> In (data p) (sheetData st) ->
     cellText numberToString (data p) (Some columnName) <> "__proto__" ->
     exists n color,
       firstOccurrences
         (List.map (fun r => cellText numberToString r (Some columnName))
                   (sheetData st)) !! n
       = Some (cellText numberToString (data p) (Some columnName)) /\
       PALETTE !! (n mod length PALETTE) = Some color /\
       getMarkerColor numberToString
         (styleConfig (handleApplyStyle numberToString st columnName)) p
       = PropText color) /\
  (forall st columnName p,
     columnName <> "" ->
     cellText numberToString (data p) (Some columnName) = "__proto__" ->
     getMarkerColor numberToString
       (styleConfig (handleApplyStyle numberToString st columnName)) p
     = PropInherited "__proto__") /\
  (forall st p,
     getMarkerColor numberToString
       (styleConfig (handleApplyStyle numberToString st "")) p
     = PropText DEFAULT_COLOR).
Proof.
  split; [|split; [|reflexivity]].
  - intros st columnName p Hname Hrow Hproto.
    set (values := List.map (fun r => cellText numberToString r (Some columnName))
                            (sheetData st)).
    set (v := cellText numberToString (data p) (Some columnName)) in *.
    assert (Hv : v ∈ firstOccurrences values).
    { apply firstOccurrences_elem, list_elem_of_In.
      apply in_map_iff. exists (data p). auto. }
    apply list_elem_of_lookup in Hv as [n Hn].
    destruct (palette_defined n) as [color Hcolor].
    exists n, color. split; [exact Hn | split; [exact Hcolor|]].
    rewrite (handleApplyStyle_styleConfig st columnName Hname). fold values.
    destruct (assignColors_lookup (firstOccurrences values) 0 emptyObject
                (firstOccurrences_NoDup values)) as [Hin _].
    specialize (Hin n v Hn Hproto). change (0 + n)%nat with n in Hin.
    unfold getMarkerColor. cbn [rule activeColumn colorMap].
    assert (Hname' : truthy (Some columnName) = true).
    { simpl. now apply negb_true_iff, String.eqb_neq. }
    rewrite Hname'. fold v. unfold getProperty. rewrite Hin, Hcolor.
    unfold orDefaultColor.
    now rewrite (palette_nonempty_entries _ color Hcolor).
  - intros st columnName p Hname Hproto.
    rewrite (handleApplyStyle_styleConfig st columnName Hname).
    set (values := List.map (fun r => cellText numberToString r (Some columnName))
                            (sheetData st)).
    destruct (assignColors_lookup (firstOccurrences values) 0 emptyObject
                (firstOccurrences_NoDup values)) as [_ Hout].
    unfold getMarkerColor. cbn [rule activeColumn colorMap].
    assert (Hname' : truthy (Some columnName) = true).
    { simpl. now apply negb_true_iff, String.eqb_neq. }
    rewrite Hname', Hproto. unfold getProperty.
    now rewrite (Hout "__proto__" (or_intror eq_refl)).
Qed.

(** X13: the own keys of the colour map built by [handleApplyStyle] are
    exactly the values of the column that occur in the sheet, except the
    text [__proto__]; the [n]-th distinct value, when it is not
    [__proto__], holds the palette entry [n mod 10]; and the map has as
    many keys as there are distinct values other than [__proto__]. *)
Theorem colorMap_keys :
  forall st columnName,
    columnName <> "" ->
    let distinct :=
      firstOccurrences
        (List.map (fun r => cellText numberToString r (Some columnName))
                  (sheetData st)) in
    exists colors,
      rule (styleConfig (handleApplyStyle numberToString st columnName))
      = Some {| column := columnName; type := categorical; colorMap := colors |} /\
      (forall v, is_Some (ownProperties colors !! v) <->
                 v <> "__proto__" /\
                 exists row, In row (sheetData st) /\
                             cellText numberToString row (Some columnName) = v) /\
      (forall n v, distinct !! n = Some v -> v <> "__proto__" ->
                   ownProperties colors !! v = PALETTE !! (n mod length PALETTE)) /\
      size (ownProperties colors)
      = length (filter (fun v => v <> "__proto__") distinct).
Proof.
  intros st columnName Hname.
  set (values := List.map (fun r => cellText numberToString r (Some columnName))
                          (sheetData st)).
  intros distinct.
  exists (assignColors 0 distinct emptyObject).
  split; [now rewrite (handleApplyStyle_styleConfig st columnName Hname)|].
  destruct (assignColors_lookup distinct 0 emptyObject
              (firstOccurrences_NoDup values)) as [Hin Hout].
  assert (Hkeys : forall v,
            is_Some (ownProperties (assignColors 0 distinct emptyObject) !! v)
            <-> v <> "__proto__" /\ v ∈ distinct).
  { intros v. split.
    - intros Hsome.
      destruct (decide (v = "__proto__")) as [-> | Hproto].
      + rewrite (Hout "__proto__" (or_intror eq_refl)) in Hsome.
        simpl in Hsome. rewrite lookup_empty in Hsome. now destruct Hsome.
      + split; [exact Hproto|].
        destruct (decide (v ∈ distinct)) as [? | Hnot]; [assumption|].
        rewrite (Hout v (or_introl Hnot)) in Hsome.
        simpl in Hsome. rewrite lookup_empty in Hsome. now destruct Hsome.
    - intros [Hproto Hv]. apply list_elem_of_lookup in Hv as [n Hn].
      rewrite (Hin n v Hn Hproto). apply palette_defined. }
  split; [|split].
  - intros v. rewrite Hkeys. unfold distinct.
    rewrite firstOccurrences_elem, list_elem_of_In.
    unfold values. rewrite in_map_iff.
    split; intros [Hproto [row H]]; (split; [exact Hproto|]); exists row; tauto.
  - intros n v Hn Hproto. exact (Hin n v Hn Hproto).
  - rewrite <- size_dom.
    assert (Hdom : dom (ownProperties (assignColors 0 distinct emptyObject))
                   = list_to_set (filter (fun v => v <> "__proto__") distinct)).
    { apply set_eq. intros v.
      rewrite elem_of_dom, elem_of_list_to_set, list_elem_of_filter.
      apply Hkeys. }
    rewrite Hdom. apply size_list_to_set, NoDup_filter, firstOccurrences_NoDup.
Qed.

End ColourFacts.

Section HexFacts.

Lemma hexToRgb_unfold hex :
  hexToRgb hex
  = rgbOfDigits (if Str.startsWith "#" hex then dropFirst hex else hex).
Proof.
  destruct hex as [|c r]; [reflexivity|].
  destruct c as [[] [] [] [] [] [] [] []]; reflexivity.
Qed.

Lemma hexDigitValue_bound c : isHexDigit c = true -> (hexDigitValue c <= 15)%N.
Proof.
  destruct c as [[] [] [] [] [] [] [] []]; simpl; try discriminate;
    intros _; vm_compute; discriminate.
Qed.

Lemma parseHexPair_bound hi lo :
  isHexDigit hi = true -> isHexDigit lo = true -> (parseHexPair hi lo <= 255)%N.
Proof.
  intros Hhi Hlo. apply hexDigitValue_bound in Hhi, Hlo.
  unfold parseHexPair. lia.
Qed.

Lemma rgbOfDigits_triple body :
  exists r g b,
    (r <= 255 /\ g <= 255 /\ b <= 255)%N /\ rgbOfDigits body = rgbText r g b.
Proof.
  assert (Hfallback : exists r g b,
            (r <= 255 /\ g <= 255 /\ b <= 255)%N /\
            "79, 70, 229" = rgbText r g b).
  { exists 79%N, 70%N, 229%N. split; [lia | reflexivity]. }
  destruct body as [|r1 [|r2 [|g1 [|g2 [|b1 [|b2 [|extra rest]]]]]]];
    try exact Hfallback.
  unfold rgbOfDigits.
  destruct (forallb isHexDigit [r1; r2; g1; g2; b1; b2]) eqn:Hhex;
    [|exact Hfallback].
  simpl in Hhex. rewrite !andb_true_iff in Hhex.
  destruct Hhex as (H1 & H2 & H3 & H4 & H5 & H6 & _).
  exists (parseHexPair r1 r2), (parseHexPair g1 g2), (parseHexPair b1 b2).
  split; [|reflexivity]. auto using parseHexPair_bound.
Qed.

(** X14: [hexToRgb] always returns three decimal numbers between 0 and
    255 separated by [", "]; a text that is not six hexadecimal digits
    after an optional [#] gives the fallback, which is the value of
    [DEFAULT_COLOR]; no palette entry gives it. *)
Theorem hexToRgb_triple :
  (forall hex,
     exists r g b,
       (r <= 255 /\ g <= 255 /\ b <= 255)%N /\ hexToRgb hex = rgbText r g b) /\
  (forall hex,
     String.length (if Str.startsWith "#" hex then dropFirst hex else hex) <> 6%nat ->
     hexToRgb hex = hexToRgb DEFAULT_COLOR) /\
  Forall (fun color => hexToRgb color <> hexToRgb DEFAULT_COLOR) PALETTE.
Proof.
  split; [|split].
  - intros hex. rewrite hexToRgb_unfold. apply rgbOfDigits_triple.
  - intros hex. rewrite hexToRgb_unfold.
    destruct (if Str.startsWith "#" hex then dropFirst hex else hex)
      as [|r1 [|r2 [|g1 [|g2 [|b1 [|b2 [|extra rest]]]]]]];
      simpl; intros Hlen; try reflexivity. congruence.
  - unfold PALETTE. repeat constructor; vm_compute; discriminate.
Qed.

Lemma isHexDigit_upperChar c : isHexDigit (Str.upperChar c) = isHexDigit c.
Proof. destruct c as [[] [] [] [] [] [] [] []]; reflexivity. Qed.

Lemma isHexDigit_lowerChar c : isHexDigit (Str.lowerChar c) = isHexDigit c.
Proof. destruct c as [[] [] [] [] [] [] [] []]; reflexivity. Qed.

Lemma hexDigitValue_upperChar c :
  isHexDigit c = true -> hexDigitValue (Str.upperChar c) = hexDigitValue c.
Proof.
  destruct c as [[] [] [] [] [] [] [] []]; simpl; try discriminate; reflexivity.
Qed.

Lemma hexDigitValue_lowerChar c :
  isHexDigit c = true -> hexDigitValue (Str.lowerChar c) = hexDigitValue c.
Proof.
  destruct c as [[] [] [] [] [] [] [] []]; simpl; try discriminate; reflexivity.
Qed.

Lemma hash_upperChar c : Ascii.eqb "#" (Str.upperChar c) = Ascii.eqb "#" c.
Proof. destruct c as [[] [] [] [] [] [] [] []]; reflexivity. Qed.

Lemma hash_lowerChar c : Ascii.eqb "#" (Str.lowerChar c) = Ascii.eqb "#" c.
Proof. destruct c as [[] [] [] [] [] [] [] []]; reflexivity. Qed.

(** A character map that keeps hexadecimal digits and their values does
    not change the colour text. *)
Lemma rgbOfDigits_map f body :
  (forall c, isHexDigit (f c) = isHexDigit c) ->
  (forall c, isHexDigit c = true -> hexDigitValue (f c) = hexDigitValue c) ->
  rgbOfDigits (Str.map f body) = rgbOfDigits body.
Proof.
  intros Hhex Hval.
  destruct body as [|r1 [|r2 [|g1 [|g2 [|b1 [|b2 [|extra rest]]]]]]];
    try reflexivity.
  cbn [Str.map rgbOfDigits forallb]. rewrite !Hhex.
  destruct (isHexDigit r1) eqn:H1; [|reflexivity].
  destruct (isHexDigit r2) eqn:H2; [|reflexivity].
  destruct (isHexDigit g1) eqn:H3; [|reflexivity].
  destruct (isHexDigit g2) eqn:H4; [|reflexivity].
  destruct (isHexDigit b1) eqn:H5; [|reflexivity].
  destruct (isHexDigit b2) eqn:H6; [|reflexivity].
  cbn [andb]. unfold parseHexPair. now rewrite !Hval.
Qed.

Lemma hexToRgb_map f hex :
  (forall c, Ascii.eqb "#" (f c) = Ascii.eqb "#" c) ->
  (forall c, isHexDigit (f c) = isHexDigit c) ->
  (forall c, isHexDigit c = true -> hexDigitValue (f c) = hexDigitValue c) ->
  hexToRgb (Str.map f hex) = hexToRgb hex.
Proof.
  intros Hhash Hhex Hval. rewrite !hexToRgb_unfold.
  destruct hex as [|c r]; [reflexivity|].
  cbn [Str.map Str.startsWith]. rewrite Hhash.
  destruct (Ascii.eqb "#" c); cbn [andb dropFirst].
  - apply rgbOfDigits_map; assumption.
  - apply (rgbOfDigits_map f (String c r)); assumption.
Qed.

(** X15: [hexToRgb] reads a colour code with or without the leading
    [#], and a colour code of ASCII characters in either letter case.
    Outside ASCII the case mappings of the program can turn a character
    into hexadecimal digits, so the second part is stated for ASCII texts
    only. *)
Theorem hexToRgb_hash_and_case :
  (forall body,
     Str.startsWith "#" body = false ->
     hexToRgb (String "#" body) = hexToRgb body) /\
  (forall hex,
     isAscii hex ->
     hexToRgb (Str.toUpperCase hex) = hexToRgb hex /\
     hexToRgb (Str.toLowerCase hex) = hexToRgb hex).
Proof.
  split.
  - intros body Hbody. rewrite !hexToRgb_unfold. now rewrite Hbody.
  - intros hex _. split.
    + apply hexToRgb_map;
        [exact hash_upperChar | exact isHexDigit_upperChar
         | exact hexDigitValue_upperChar].
    + apply hexToRgb_map;
        [exact hash_lowerChar | exact isHexDigit_lowerChar
         | exact hexDigitValue_lowerChar].
Qed.

End HexFacts.

Lemma getMarkerColor_after_style_witness :
  let st := {| isLoading := false; error := None;
               sheetData := [[("kind", CStr "b")]; [("kind", CStr "toString")]];
               headers := ["kind"]; mapping := None; points := [];
               styleConfig := {| activeColumn := None; rule := None |};
               theme := light |} in
  let p := {| lat := Num.ofZ 1; lng := Num.ofZ 2;
              data := [("kind", CStr "toString")] |} in
  exists n color,
    firstOccurrences ["b"; "toString"] !! n = Some "toString" /\
    PALETTE !! (n mod length PALETTE) = Some color /\
    getMarkerColor (fun _ => "")
      (styleConfig (handleApplyStyle (fun _ => "") st "kind")) p
    = PropText color.
Proof.
  intros st p.
  apply (proj1 (getMarkerColor_after_style (fun _ => "")) st "kind" p);
    [discriminate | right; left; reflexivity | discriminate].
Defined.

Lemma colorMap_keys_witness :
  let st := {| isLoading := false; error := None;
               sheetData := [[("kind", CStr "b")]; [("kind", CStr "__proto__")];
                             [("kind", CStr "b")]; [("kind", CStr "a")]];
               headers := ["kind"]; mapping := None; points := [];
               styleConfig := {| activeColumn := None; rule := None |};
               theme := light |} in
  exists colors,
    rule (styleConfig (handleApplyStyle (fun _ => "") st "kind"))
    = Some {| column := "kind"; type := categorical; colorMap := colors |} /\
    ownProperties colors !! "a" = Some "#10b981" /\
    size (ownProperties colors) = 2%nat.
Proof.
  intros st.
  destruct (colorMap_keys (fun _ => "") st "kind")
    as (colors & Hrule & _ & Hin & Hsize); [discriminate|].
  exists colors. split; [exact Hrule|]. split; [|exact Hsize].
  apply (Hin 2%nat "a"); [reflexivity | discriminate].
Defined.

Lemma hexToRgb_triple_witness : hexToRgb "#fff" = hexToRgb DEFAULT_COLOR.
Proof.
  apply (proj1 (proj2 hexToRgb_triple)). simpl. discriminate.
Defined.

Lemma hexToRgb_hash_and_case_witness :
  hexToRgb "#10b981" = hexToRgb "10b981" /\
  (hexToRgb (Str.toUpperCase "#10b981") = hexToRgb "#10b981" /\
   hexToRgb (Str.toLowerCase "#10b981") = hexToRgb "#10b981").
Proof.
  split.
  - apply (proj1 hexToRgb_hash_and_case). reflexivity.
  - apply (proj2 hexToRgb_hash_and_case "#10b981").
    intros c Hc; unfold occursIn in Hc; simpl in Hc;
      intuition (subst; vm_compute; lia).
Defined.

(** * More on the cluster aggregator *)

Section ClusterMore.

Variable numberToString : number -> string.

Lemma omap_memberNumber_cons val rest :
  omap memberNumber (val :: rest)
  = match memberNumber val with
    | Some num => num :: omap memberNumber rest
    | None => omap memberNumber rest
    end.
Proof. reflexivity. Qed.

Lemma omap_memberNumber_filter (markers : list OptionValue) :
  omap memberNumber (filter (fun val => is_Some (memberNumber val)) markers)
  = omap memberNumber markers.
Proof.
  induction markers as [|val rest IH]; [reflexivity|].
  rewrite filter_cons, (omap_memberNumber_cons val rest).
  destruct (decide (is_Some (memberNumber val))) as [[num Hnum] | Hnone].
  - rewrite omap_memberNumber_cons, Hnum. now rewrite IH.
  - destruct (memberNumber val) as [num|]; [|exact IH].
    destruct Hnone. eauto.
Qed.

(** X16: members whose highlight value holds no number do not change the
    display value of a cluster as long as one member holds a number:
    removing them all gives the same value. *)
Theorem displayValue_ignores_non_numeric (markers : list OptionValue) val num :
  In val markers -> memberNumber val = Some num ->
  displayValue (filter (fun v => is_Some (memberNumber v)) markers)
  = displayValue markers.
Proof.
  intros Hin Hval. rewrite !displayValue_spec. unfold clusterDisplaySpec.
  rewrite omap_memberNumber_filter.
  destruct (omap memberNumber markers) eqn:Hnums; [|reflexivity].
  apply omap_memberNumber_nil with (val := val) in Hnums; [congruence | exact Hin].
Qed.

Lemma latentoValue_no_key p :
  latentoKey p = None -> latentoValue numberToString p = "".
Proof. intros Hkey. unfold latentoValue. now rewrite Hkey. Qed.

(** X17: [latentoKey] is a key of the row that reads [latento] when
    lowercased, and the marker carries that cell's text; when no point of
    a cluster has such a key, every marker carries the empty text and the
    cluster shows the number of its points. *)
Theorem cluster_without_latento :
  (forall p k,
     latentoKey p = Some k ->
     Str.toLowerCase k = "latento" /\ In k (List.map fst (data p)) /\
     latentoValue numberToString p = cellText numberToString (data p) (Some k)) /\
  (forall pts,
     (forall p, In p pts -> latentoKey p = None) ->
     displayValue (List.map (fun p => Text (latentoValue numberToString p)) pts)
     = DNumber (Num.ofZ (Z.of_nat (length pts)))).
Proof.
  split.
  - intros p k Hkey. pose proof Hkey as Hfind. unfold latentoKey in Hfind.
    apply find_some in Hfind as [Hin Hlower]. apply String.eqb_eq in Hlower.
    repeat split; try assumption.
    unfold latentoValue. rewrite Hkey. simpl.
    destruct (String.eqb_spec k "") as [-> | _]; [discriminate | reflexivity].
  - intros pts Hnone. rewrite displayValue_spec. unfold clusterDisplaySpec.
    assert (Hnums : omap memberNumber
                      (List.map (fun p => Text (latentoValue numberToString p)) pts)
                    = []).
    { apply omap_memberNumber_nil. intros val Hval.
      apply in_map_iff in Hval as (p & <- & Hp).
      now rewrite (latentoValue_no_key p (Hnone p Hp)). }
    now rewrite Hnums, length_map.
Qed.

End ClusterMore.

(** * More on the column mapping resolver *)

Section MappingMore.

Variable numberToString : number -> string.

Lemma find_none_candidates (f : string -> bool) (P : string -> Prop) hs :
  (forall h, f h = true <-> P h) ->
  Forall (fun x => ~ P x) hs -> List.find f hs = None.
Proof.
  intros Hf Hall. induction Hall as [|x rest Hx _ IH]; [reflexivity|].
  simpl. destruct (f x) eqn:Hfx; [|exact IH].
  destruct Hx. now apply Hf.
Qed.

Lemma find_after_non_candidates (f : string -> bool) before h after :
  Forall (fun x => f x = false) before -> f h = true ->
  List.find f (before ++ h :: after) = Some h.
Proof.
  intros Hall Hh. induction Hall as [|x rest Hx _ IH]; simpl.
  - now rewrite Hh.
  - now rewrite Hx.
Qed.

(** X18: on a header list with fewer than two entries and no longitude
    candidate, [fallbackMapping] leaves the longitude column undefined,
    and [processPoints] with that mapping plots nothing; in particular
    for a sheet without headers. *)
Theorem fallbackMapping_short_headers hs rows :
  (length hs < 2)%nat -> Forall (fun h => ~ lngCandidate h) hs ->
  lngColumn (fallbackMapping hs) = None /\
  processPoints numberToString rows (Some (fallbackMapping hs)) = [].
Proof.
  intros Hlen Hnone.
  assert (Hlng : lngColumn (fallbackMapping hs) = None).
  { simpl. rewrite (find_none_candidates _ _ hs isLngHeader_candidate Hnone).
    unfold orElse. simpl. apply lookup_ge_None. lia. }
  split; [exact Hlng|].
  unfold processPoints. rewrite Hlng. simpl. now rewrite orb_true_r.
Qed.

(** X19: when the first header that is a candidate for either side reads
    [coordinates] or [coords], whatever its case, [fallbackMapping] names
    it for both sides, so [processPoints] treats the sheet in
    combined-column mode. *)
Theorem fallbackMapping_coordinates_header before h after rows :
  Forall (fun x => ~ latCandidate x /\ ~ lngCandidate x) before ->
  Str.toLowerCase h = "coordinates" \/ Str.toLowerCase h = "coords" ->
  fallbackMapping (before ++ h :: after)
  = {| latColumn := Some h; lngColumn := Some h |} /\
  processPoints numberToString rows (Some (fallbackMapping (before ++ h :: after)))
  = flat_map (combinedRowPoints numberToString h) rows.
Proof.
  intros Hbefore Hname.
  assert (Hlat : isLatHeader h = true).
  { apply isLatHeader_candidate. unfold latCandidate. cbv zeta. tauto. }
  assert (Hlng : isLngHeader h = true).
  { apply isLngHeader_candidate. unfold lngCandidate. cbv zeta. tauto. }
  assert (Hne : truthy (Some h) = true).
  { simpl. apply negb_true_iff, String.eqb_neq. intros ->.
    destruct Hname; discriminate. }
  assert (Hmap : fallbackMapping (before ++ h :: after)
                 = {| latColumn := Some h; lngColumn := Some h |}).
  { unfold fallbackMapping.
    rewrite (find_after_non_candidates isLatHeader before h after), 
            (find_after_non_candidates isLngHeader before h after); try assumption.
    - unfold orElse. now rewrite Hne.
    - eapply Forall_impl; [exact Hbefore|]. intros x [_ Hx].
      destruct (isLngHeader x) eqn:Hfx; [|reflexivity].
      destruct Hx. now apply isLngHeader_candidate.
    - eapply Forall_impl; [exact Hbefore|]. intros x [Hx _].
      destruct (isLatHeader x) eqn:Hfx; [|reflexivity].
      destruct Hx. now apply isLatHeader_candidate. }
  split; [exact Hmap|]. rewrite Hmap.
  rewrite processPoints_configured by exact Hne.
  cbn [latColumn lngColumn sameColumn]. rewrite String.eqb_refl.
  induction rows as [|row rows IH]; simpl; [reflexivity|].
  now rewrite IH,
    (processRow_combined numberToString
       {| latColumn := Some h; lngColumn := Some h |} h row eq_refl).
Qed.

End MappingMore.

Lemma displayValue_ignores_non_numeric_witness :
  displayValue (filter (fun v => is_Some (memberNumber v))
                  [Text "bad"; Text "2.5kg"; Text ""; Text "1kg"])
  = displayValue [Text "bad"; Text "2.5kg"; Text ""; Text "1kg"].
Proof.
  apply (displayValue_ignores_non_numeric _ (Text "1kg") (Num.ofZ 1)).
  - simpl. tauto.
  - reflexivity.
Defined.

Lemma cluster_without_latento_witness :
  displayValue
    (List.map (fun p => Text (latentoValue (fun _ => "") p))
       [{| lat := Num.ofZ 1; lng := Num.ofZ 2; data := [("city", CStr "Oslo")] |};
        {| lat := Num.ofZ 3; lng := Num.ofZ 4; data := [("city", CStr "Moss")] |}])
  = DNumber (Num.ofZ 2).
Proof.
  apply (proj2 (cluster_without_latento (fun _ => ""))
           [{| lat := Num.ofZ 1; lng := Num.ofZ 2; data := [("city", CStr "Oslo")] |};
            {| lat := Num.ofZ 3; lng := Num.ofZ 4; data := [("city", CStr "Moss")] |}]).
  intros p [<- | [<- | []]]; reflexivity.
Defined.

Lemma fallbackMapping_short_headers_witness :
  lngColumn (fallbackMapping ["Place"]) = None /\
  processPoints (fun _ => "") [[("Place", CStr "1,2")]]
    (Some (fallbackMapping ["Place"])) = [].
Proof.
  apply (fallbackMapping_short_headers (fun _ => "")); [simpl; lia|].
  repeat constructor. rewrite <- isLngHeader_candidate. discriminate.
Defined.

Lemma fallbackMapping_coordinates_header_witness :
  fallbackMapping (["Name"] ++ "Coords" :: ["Note"])
  = {| latColumn := Some "Coords"; lngColumn := Some "Coords" |} /\
  processPoints (fun _ => "") [[("Coords", CStr "40.7, -74.0")]]
    (Some (fallbackMapping (["Name"] ++ "Coords" :: ["Note"])))
  = flat_map (combinedRowPoints (fun _ => "") "Coords")
      [[("Coords", CStr "40.7, -74.0")]].
Proof.
  apply (fallbackMapping_coordinates_header (fun _ => "")).
  - repeat constructor.
    + rewrite <- isLatHeader_candidate. discriminate.
    + rewrite <- isLngHeader_candidate. discriminate.
  - right. reflexivity.
Defined.

(** * A style rule outlives the sheet it was built from *)

Section StaleStyle.

Variable numberToString : number -> string.

(** X20: [handleFetch] leaves the style rule alone, so after a new sheet
    has been loaded the rule of the previous sheet is still active.  A
    point whose value in the styled column did not occur in the previous
    sheet is then drawn in [DEFAULT_COLOR], unless that value is the name
    of a member of [Object.prototype] ([toString], [constructor], ...):
    then the lookup returns the inherited member. *)
Theorem style_rule_survives_fetch st columnName targetUrl outcome p :
  columnName <> "" ->
  (forall row, In row (sheetData st) ->
               cellText numberToString row (Some columnName)
               <> cellText numberToString (data p) (Some columnName)) ->
  let styled := handleApplyStyle numberToString st columnName in
  let loaded := handleFetch numberToString styled targetUrl outcome in
  let value := cellText numberToString (data p) (Some columnName) in
  styleConfig loaded = styleConfig styled /\
  (value ∉ objectPrototypeNames ->
   getMarkerColor numberToString (styleConfig loaded) p = PropText DEFAULT_COLOR) /\
  (value ∈ objectPrototypeNames ->
   getMarkerColor numberToString (styleConfig loaded) p = PropInherited value).
Proof.
  intros Hname Hfresh styled loaded value.
  assert (Hkeep : styleConfig loaded = styleConfig styled).
  { unfold loaded, handleFetch.
    destruct (negb (truthy (Some targetUrl))); [reflexivity|].
    now destruct outcome. }
  split; [exact Hkeep|]. rewrite Hkeep. unfold styled.
  rewrite (handleApplyStyle_styleConfig numberToString st columnName Hname).
  set (values := List.map (fun r => cellText numberToString r (Some columnName))
                          (sheetData st)).
  assert (Hv : value ∉ firstOccurrences values).
  { rewrite firstOccurrences_elem, list_elem_of_In. unfold values.
    rewrite in_map_iff. intros (row & Heq & Hrow). exact (Hfresh row Hrow Heq). }
  destruct (assignColors_lookup (firstOccurrences values) 0 emptyObject
              (firstOccurrences_NoDup values)) as [_ Hout].
  assert (Hname' : truthy (Some columnName) = true).
  { simpl. now apply negb_true_iff, String.eqb_neq. }
  unfold getMarkerColor. cbn [rule activeColumn colorMap].
  rewrite Hname'. fold value. unfold getProperty.
  rewrite (Hout value (or_introl Hv)). simpl ownProperties.
  rewrite lookup_empty.
  split; intros Hnames.
  - now rewrite bool_decide_eq_false_2.
  - now rewrite bool_decide_eq_true_2.
Qed.

End StaleStyle.

(** * Text with a number followed by a minus sign *)

Section RangeText.

Lemma allDigits_cons c r :
  allDigits (String c r) -> Str.isDigit c = true /\ allDigits r.
Proof.
  intros Hall. split.
  - apply Hall. now left.
  - intros d Hd. apply Hall. now right.
Qed.

Lemma digit_facts c :
  Str.isDigit c = true ->
  Str.isSpace c = false /\ Str.upperChar c = c /\ isNumericChar c = true /\
  Ascii.eqb c "," = false /\ Ascii.eqb c "." = false /\
  Ascii.eqb c "S" = false /\ Ascii.eqb c "W" = false /\ Ascii.eqb c "-" = false.
Proof.
  destruct c as [[] [] [] [] [] [] [] []]; simpl; try discriminate;
    intros _; repeat split.
Qed.

Lemma trimEnd_nonspace c r :
  Str.isSpace c = false -> Str.trimEnd (String c r) = String c (Str.trimEnd r).
Proof.
  intros Hc. simpl. rewrite Hc. now destruct (Str.trimEnd r).
Qed.

Lemma trimEnd_digits_app digits t :
  allDigits digits ->
  Str.trimEnd (digits ++ String "-" t)%string
  = (digits ++ String "-" (Str.trimEnd t))%string.
Proof.
  induction digits as [|c r IH]; intros Hdigits.
  - exact (trimEnd_nonspace "-" t eq_refl).
  - destruct (allDigits_cons c r Hdigits) as [Hc Hr].
    change (String c r ++ String "-" t)%string
      with (String c (r ++ String "-" t)%string).
    now rewrite (trimEnd_nonspace c _ (proj1 (digit_facts c Hc))), (IH Hr).
Qed.

Lemma toUpperCase_digits_app digits t :
  allDigits digits ->
  Str.toUpperCase (digits ++ t)%string = (digits ++ Str.toUpperCase t)%string.
Proof.
  unfold Str.toUpperCase.
  induction digits as [|c r IH]; intros Hdigits; [reflexivity|].
  destruct (allDigits_cons c r Hdigits) as [Hc Hr].
  destruct (digit_facts c Hc) as (_ & Hup & _).
  change (String c r ++ t)%string with (String c (r ++ t)%string).
  cbn [Str.map]. now rewrite Hup, (IH Hr).
Qed.

Lemma stripNonNumeric_digits_app digits t :
  allDigits digits ->
  stripNonNumeric (digits ++ t)%string = (digits ++ stripNonNumeric t)%string.
Proof.
  unfold stripNonNumeric.
  induction digits as [|c r IH]; intros Hdigits; [reflexivity|].
  destruct (allDigits_cons c r Hdigits) as [Hc Hr].
  destruct (digit_facts c Hc) as (_ & _ & Hnum & _).
  change (String c r ++ t)%string with (String c (r ++ t)%string).
  cbn [Str.filter]. now rewrite Hnum, (IH Hr).
Qed.

Lemma replaceFirst_digits_app digits t :
  allDigits digits ->
  Str.replaceFirst "," "." (digits ++ t)%string
  = (digits ++ Str.replaceFirst "," "." t)%string.
Proof.
  induction digits as [|c r IH]; intros Hdigits; [reflexivity|].
  destruct (allDigits_cons c r Hdigits) as [Hc Hr].
  destruct (digit_facts c Hc) as (_ & _ & _ & Hcomma & _).
  change (String c r ++ t)%string with (String c (r ++ t)%string).
  cbn [Str.replaceFirst]. now rewrite Hcomma, (IH Hr).
Qed.

(** The digits and the minus sign go through trimming, uppercasing, the
    comma rewrite and the cleaning unchanged; what follows them stays
    behind them. *)
Lemma cleaned_range_text digits rest :
  allDigits digits -> digits <> "" ->
  let s := Str.toUpperCase (Str.trim (digits ++ String "-" rest)%string) in
  exists tail,
    stripNonNumeric (normalizeComma s) = (digits ++ String "-" tail)%string /\
    s = (digits ++ String "-" (Str.toUpperCase (Str.trimEnd rest)))%string.
Proof.
  intros Hdigits Hne. cbv zeta.
  assert (Htrim : Str.trim (digits ++ String "-" rest)%string
                  = (digits ++ String "-" (Str.trimEnd rest))%string).
  { unfold Str.trim. rewrite <- (trimEnd_digits_app digits rest Hdigits). f_equal.
    destruct digits as [|c r]; [contradiction|].
    destruct (allDigits_cons c r Hdigits) as [Hc _].
    change (String c r ++ String "-" rest)%string
      with (String c (r ++ String "-" rest)%string).
    cbn [Str.trimStart]. now rewrite (proj1 (digit_facts c Hc)). }
  rewrite Htrim, (toUpperCase_digits_app digits _ Hdigits).
  change (Str.toUpperCase (String "-" (Str.trimEnd rest)))
    with (String "-" (Str.toUpperCase (Str.trimEnd rest))).
  set (upper := Str.toUpperCase (Str.trimEnd rest)).
  assert (Hstrip : forall t,
            stripNonNumeric (digits ++ String "-" t)%string
            = (digits ++ String "-" (stripNonNumeric t))%string).
  { intros t. now rewrite (stripNonNumeric_digits_app digits _ Hdigits). }
  unfold normalizeComma.
  destruct (Str.includesChar "," _ && negb (Str.includesChar "." _)).
  - destruct (Str.countChar "," _ =? 1)%nat.
    + rewrite (replaceFirst_digits_app digits _ Hdigits).
      change (Str.replaceFirst "," "." (String "-" upper))
        with (String "-" (Str.replaceFirst "," "." upper)).
      rewrite Hstrip. eauto.
    + rewrite Hstrip. eauto.
  - rewrite Hstrip. eauto.
Qed.

Lemma spanDigits_before_minus digits tail :
  allDigits digits ->
  Str.spanDigits (digits ++ String "-" tail)%string = (digits, String "-" tail).
Proof.
  induction digits as [|c r IH]; intros Hdigits; [reflexivity|].
  destruct (allDigits_cons c r Hdigits) as [Hc Hr].
  simpl. now rewrite Hc, (IH Hr).
Qed.

Lemma parseFloat_before_minus digits tail :
  allDigits digits -> digits <> "" ->
  parseFloat (digits ++ String "-" tail)%string
  = Num.ofDecimal (Str.digitsValue 0 digits) 0.
Proof.
  intros Hdigits Hne.
  assert (Hunsigned : parseUnsigned (digits ++ String "-" tail)%string
                      = Some (Num.ofDecimal (Str.digitsValue 0 digits) 0)).
  { unfold parseUnsigned. rewrite (spanDigits_before_minus digits tail Hdigits).
    assert (Hnil : (digits ++ "")%string = digits).
    { clear. induction digits as [|d r IH]; [reflexivity|].
      change (String d r ++ "")%string with (String d (r ++ "")%string).
      now rewrite IH. }
    rewrite Hnil. now destruct digits. }
  destruct digits as [|c r]; [contradiction|].
  destruct (allDigits_cons c r Hdigits) as [Hc _].
  destruct (digit_facts c Hc) as (_ & _ & _ & _ & _ & _ & _ & Hminus).
  unfold parseFloat.
  change (String c r ++ String "-" tail)%string
    with (String c (r ++ String "-" tail)%string) in *.
  rewrite Hunsigned.
  destruct c as [[] [] [] [] [] [] [] []]; try reflexivity. discriminate.
Qed.

Lemma includesChar_digits_app ch digits t :
  allDigits digits -> (forall c, Str.isDigit c = true -> Ascii.eqb c ch = false) ->
  Str.includesChar ch (digits ++ t)%string = Str.includesChar ch t.
Proof.
  intros Hdigits Hch. induction digits as [|c r IH]; [reflexivity|].
  destruct (allDigits_cons c r Hdigits) as [Hc Hr].
  simpl. now rewrite (Hch c Hc), (IH Hr).
Qed.

Lemma includesChar_trimEnd ch s :
  Str.isSpace ch = false ->
  Str.includesChar ch (Str.trimEnd s) = Str.includesChar ch s.
Proof.
  intros Hch. induction s as [|c r IH]; [reflexivity|].
  simpl. rewrite <- IH. destruct (Str.trimEnd r) as [|d r'].
  - destruct (Str.isSpace c) eqn:Hc; simpl; [|reflexivity].
    rewrite orb_false_r. symmetry. apply Ascii.eqb_neq. intros ->. congruence.
  - reflexivity.
Qed.

(** X21: in a text made of digits, a minus sign and anything after it
    (a range such as [10-20], a date such as [2024-05-01]) only the
    leading digits are read: the result is their value, negative exactly
    when the rest holds an [s] or a [w]. *)
Theorem cleanAndParse_stops_at_minus digits rest :
  allDigits digits -> digits <> "" ->
  cleanAndParse (digits ++ String "-" rest)%string
  = signedMagnitude
      (Str.includesChar "S" (Str.toUpperCase rest) ||
       Str.includesChar "W" (Str.toUpperCase rest))
      (Num.ofDecimal (Str.digitsValue 0 digits) 0).
Proof.
  intros Hdigits Hne. rewrite cleanAndParse_unfold. cbv zeta.
  destruct (cleaned_range_text digits rest Hdigits Hne) as (tail & Hclean & Hs).
  cbv zeta in Hclean, Hs. rewrite Hclean, Hs.
  rewrite (parseFloat_before_minus digits tail Hdigits Hne).
  destruct digits as [|c r] eqn:Hd; [contradiction|]. rewrite <- Hd in *.
  assert (Hnonempty : String.eqb (digits ++ String "-"
                         (Str.toUpperCase (Str.trimEnd rest)))%string "" = false).
  { rewrite Hd. reflexivity. }
  rewrite Hnonempty. f_equal.
  unfold isNegative.
  rewrite !(includesChar_digits_app _ digits) by
    (try exact Hdigits; intros d Hdig; now destruct (digit_facts d Hdig)
       as (_ & _ & _ & _ & _ & HS & HW & _)).
  assert (Hstart : Str.startsWith "-" (digits ++ String "-"
                      (Str.toUpperCase (Str.trimEnd rest)))%string = false).
  { rewrite Hd. destruct (allDigits_cons c r) as [Hc _]; [now rewrite <- Hd|].
    destruct (digit_facts c Hc) as (_ & _ & _ & _ & _ & _ & _ & Hminus).
    change (String c r ++ ?t)%string with (String c (r ++ t)%string).
    cbn [Str.startsWith]. now rewrite (Ascii.eqb_sym "-" c), Hminus. }
  rewrite Hstart, orb_false_r. cbn [Str.includesChar].
  change (Ascii.eqb "-" "S") with false. change (Ascii.eqb "-" "W") with false.
  cbn [orb]. unfold Str.toUpperCase.
  rewrite <- !(trimEnd_map Str.upperChar rest isSpace_upperChar).
  now rewrite !includesChar_trimEnd.
Qed.

End RangeText.

Lemma style_rule_survives_fetch_witness :
  let st := {| isLoading := false; error := None;
               sheetData := [[("kind", CStr "a")]];
               headers := ["kind"]; mapping := None; points := [];
               styleConfig := {| activeColumn := None; rule := None |};
               theme := light |} in
  let p := {| lat := Num.ofZ 1; lng := Num.ofZ 2; data := [("kind", CStr "z")] |} in
  getMarkerColor (fun _ => "")
    (styleConfig
       (handleFetch (fun _ => "") (handleApplyStyle (fun _ => "") st "kind") "u"
          (FetchLoaded ["kind"] [[("kind", CStr "z")]] "" Threw))) p
  = PropText DEFAULT_COLOR.
Proof.
  intros st p.
  apply (style_rule_survives_fetch (fun _ => "") st "kind" "u"
           (FetchLoaded ["kind"] [[("kind", CStr "z")]] "" Threw) p).
  - discriminate.
  - intros row [<- | []]. discriminate.
  - exact (bool_decide_eq_false_1 ("z" ∈ objectPrototypeNames) eq_refl).
Defined.

Lemma cleanAndParse_stops_at_minus_witness :
  cleanAndParse ("2024" ++ String "-" "05-01")%string
  = signedMagnitude
      (Str.includesChar "S" (Str.toUpperCase "05-01") ||
       Str.includesChar "W" (Str.toUpperCase "05-01"))
      (Num.ofDecimal (Str.digitsValue 0 "2024") 0).
Proof.
  apply cleanAndParse_stops_at_minus; [|discriminate].
  intros c Hc; unfold occursIn in Hc; simpl in Hc;
    intuition (subst; reflexivity).
Defined.
